(** * ai-cv-evaluator-frontend: the evaluation page's polling state machine

    A shallow embedding of [src/app/evaluation/page.tsx] (the evaluation
    dashboard) and of the login page, and the properties of the
    request helper [fetchJSON], of the handlers [handleUpload],
    [handleEvaluate], [handleLogin] and of the interval callback that
    [pollResult] installs.

    Conventions of the embedding.
    - JavaScript numbers that the page computes with ([progress],
      [progressValue], [Math.random()]) are rationals ([Q]), so the
      rounding of floating-point arithmetic is not modelled; timestamps
      ([Date.now()]) are integers ([Z]).
    - A parsed JSON number is kept by what the page can observe of it:
      whether it is falsy and how [ToString] renders it.
    - An [Error] is kept by its [message], the only field the page reads.
    - An [async] function is cut at its [await]: the part before it and
      the part after it are two atomic steps; the outcome of the awaited
      promise is an input of the second one. *)

From Stdlib Require Import ZArith QArith Qminmax Lia Lqa Sorted.
From stdpp Require Import base list strings gmap.

Set Warnings "-register-all".
#[local] Open Scope string_scope.

(** ** JavaScript values, as [JSON.parse] produces them *)

Module JS.

(** A number, by its two observations: [falsy] for [+0], [-0] and [NaN],
    and the string [ToString] gives. *)
Record Number := { falsy : bool; toString : string }.

Inductive Value :=
| Undefined
| Null
| Bool (b : bool)
| Num (n : Number)
| Str (s : string)
| Arr (elements : list Value)
| Obj (fields : gmap string Value).

(** The empty object literal [{}]. *)
Definition emptyObject : Value := Obj ∅.

(** ToBoolean. *)
Definition truthy (v : Value) : bool :=
  match v with
  | Undefined | Null => false
  | Bool b => b
  | Num n => negb (falsy n)
  | Str s => negb (String.eqb s "")
  | Arr _ | Obj _ => true
  end.

(** [a || b] *)
Definition or (a b : Value) : Value := if truthy a then a else b.

(** [Array.prototype.join(",")] over already rendered elements. *)
Fixpoint join (parts : list string) : string :=
  match parts with
  | [] => ""
  | [p] => p
  | p :: rest => p ++ "," ++ join rest
  end.

(** ToString. An array renders its elements joined by commas, with
    [null] and [undefined] elements rendered empty. *)
Fixpoint ToString (v : Value) : string :=
  match v with
  | Undefined => "undefined"
  | Null => "null"
  | Bool true => "true"
  | Bool false => "false"
  | Num n => toString n
  | Str s => s
  | Arr l =>
      join (map (fun e => match e with
                          | Undefined | Null => ""
                          | _ => ToString e
                          end) l)
  | Obj _ => "[object Object]"
  end.

(** [data?.key]: [undefined] on [null] and [undefined], and on every
    value that has no own property of that name. *)
Definition get (data : Value) (key : string) : Value :=
  match data with
  | Obj fields => default Undefined (fields !! key)
  | _ => Undefined
  end.

(** The [message] of [new Error(v)]. *)
Definition errorMessage (v : Value) : string :=
  match v with
  | Undefined => ""
  | _ => ToString v
  end.

End JS.

(** ** Promises and HTTP responses *)

(** What an awaited promise settles to; a rejection carries the message of
    the error thrown. *)
Inductive Outcome (A : Type) :=
| Resolved (a : A)
| Rejected (message : string).
Arguments Resolved {A} a.
Arguments Rejected {A} message.

#[export] Instance Outcome_ret : MRet Outcome := @Resolved.
#[export] Instance Outcome_bind : MBind Outcome := fun A B f o =>
  match o with
  | Resolved a => f a
  | Rejected m => Rejected m
  end.

Module Http.

(** The text of a response body, by what [JSON.parse] makes of it. *)
Inductive Body :=
| Empty                      (* the empty string *)
| Malformed                  (* not empty, and [JSON.parse] throws *)
| Json (data : JS.Value).    (* not empty, and [JSON.parse] returns [data] *)

Record Response := { status : Z; statusText : string; body : Body }.

(** [res.ok]: the status is in the range 200-299. *)
Definition ok (res : Response) : bool :=
  (200 <=? status res)%Z && (status res <=? 299)%Z.

(** [let data = {}; try { data = text ? JSON.parse(text) : {}; } catch {}] *)
Definition parse (text : Body) : JS.Value :=
  match text with
  | Empty => JS.emptyObject
  | Malformed => JS.emptyObject
  | Json data => data
  end.

(** [new Error(data?.error || res.statusText || "Request failed")] *)
Definition requestError (data : JS.Value) (res : Response) : string :=
  JS.errorMessage
    (JS.or (JS.or (JS.get data "error") (JS.Str (statusText res)))
           (JS.Str "Request failed")).

End Http.

(** ** Handlers: state passing with exceptions *)

(** How a run of handler code ends: normally with a value, or by an
    exception that nothing caught; either way with the state it reached. *)
Inductive Completion (S A : Type) :=
| Normal (a : A) (s : S)
| Thrown (message : string) (s : S).
Arguments Normal {S A} a s.
Arguments Thrown {S A} message s.

Definition Handler (S A : Type) : Type := S -> Completion S A.

#[export] Instance Handler_ret {S} : MRet (Handler S) := fun A a s => Normal a s.
#[export] Instance Handler_bind {S} : MBind (Handler S) := fun A B f m s =>
  match m s with
  | Normal a s' => f a s'
  | Thrown e s' => Thrown e s'
  end.

Section HandlerOps.
Context {S : Type}.

Definition throw {A} (message : string) : Handler S A :=
  fun s => Thrown message s.

(** [try { body } catch (err) { handler(err.message) }] *)
Definition tryCatch {A} (body : Handler S A) (handler : string -> Handler S A)
  : Handler S A :=
  fun s =>
    match body s with
    | Normal a s' => Normal a s'
    | Thrown e s' => handler e s'
    end.

(** [try { body } finally { final }] *)
Definition tryFinally {A} (body : Handler S A) (final : Handler S unit)
  : Handler S A :=
  fun s =>
    match body s with
    | Normal a s' => (final;; mret a) s'
    | Thrown e s' => (final;; throw e) s'
    end.

(** [await promise], once the promise has settled to [o]. *)
Definition await {A} (o : Outcome A) : Handler S A :=
  match o with
  | Resolved a => mret a
  | Rejected e => throw e
  end.

Definition modify (f : S -> S) : Handler S unit := fun s => Normal tt (f s).
Definition gets {A} (f : S -> A) : Handler S A := fun s => Normal (f s) s.

(** The state a handler leaves, however it ends. *)
Definition finalState {A} (c : Completion S A) : S :=
  match c with
  | Normal _ s => s
  | Thrown _ s => s
  end.

(** The message of the exception that left the handler, if one did. *)
Definition uncaught {A} (c : Completion S A) : option string :=
  match c with
  | Normal _ _ => None
  | Thrown e _ => Some e
  end.
End HandlerOps.

(** ** The login page *)

Module Login.

(** [fetchJSON] of the login page; [cast] is the unchecked [data as T]. *)
Definition fetchJSON {T} (cast : JS.Value -> T) (fetch : Outcome Http.Response)
  : Outcome T :=
  res ← fetch;
  let data := Http.parse (Http.body res) in
  if negb (Http.ok res) then Rejected (Http.requestError data res)
  else Resolved (cast data).

Record LoginResponse := {
  access_token : string;
  token_type : option string;
  tenant_id : string }.

(** The login component's state, the browser's [localStorage] and the
    route the router was last pushed to. *)
Record Page := {
  email : string;
  password : string;
  loading : bool;
  error : string;
  localStorage : gmap string string;
  route : string }.

Definition setLoading (v : bool) : Handler Page unit :=
  modify (fun p =>
    {| email := email p; password := password p; loading := v;
       error := error p; localStorage := localStorage p; route := route p |}).

Definition setError (v : string) : Handler Page unit :=
  modify (fun p =>
    {| email := email p; password := password p; loading := loading p;
       error := v; localStorage := localStorage p; route := route p |}).

Definition setItem (key value : string) : Handler Page unit :=
  modify (fun p =>
    {| email := email p; password := password p; loading := loading p;
       error := error p; localStorage := <[key := value]> (localStorage p);
       route := route p |}).

Definition push (path : string) : Handler Page unit :=
  modify (fun p =>
    {| email := email p; password := password p; loading := loading p;
       error := error p; localStorage := localStorage p; route := path |}).

Definition handleLogin_before : Handler Page unit :=
  setError "";;
  setLoading true.

(** [handleLogin], from its [await] on; [fetch] is what
    [fetchJSON<LoginResponse>] settled to. A field the server left out
    reads as the empty string: both are falsy. *)
Definition handleLogin_after (fetch : Outcome LoginResponse) : Handler Page unit :=
  tryFinally
    (tryCatch
       (res ← await fetch;
        (if String.eqb (access_token res) "" || String.eqb (tenant_id res) ""
         then throw "Invalid login response"
         else mret tt);;
        setItem "authToken" (access_token res);;
        setItem "tenantId" (tenant_id res);;
        push "/evaluation")
       (fun message =>
          setError (if String.eqb message "" then "Login failed" else message)))
    (setLoading false).

Definition handleLogin (fetch : Outcome LoginResponse) : Handler Page unit :=
  handleLogin_before;;
  handleLogin_after fetch.

End Login.

(** ** The evaluation page *)

Module Evaluation.

(** [fetchJSON] of the evaluation page: a 404 is thrown before the body
    is read. *)
Definition fetchJSON {T} (cast : JS.Value -> T) (fetch : Outcome Http.Response)
  : Outcome T :=
  res ← fetch;
  if (Http.status res =? 404)%Z then Rejected "404"
  else
    let data := Http.parse (Http.body res) in
    if negb (Http.ok res) then Rejected (Http.requestError data res)
    else Resolved (cast data).

(** *** The responses of the backend, at their declared types *)

(** [data as T] checks nothing. The fields a handler reads are kept at
    their declared types, with two exceptions that change what the page
    does. The text null parses to [null], whose properties cannot be
    read: a handler that reads the response inside a [try] statement
    catches the [TypeError] like the error of a failed request, that is
    like [Rejected] with the message of the [TypeError]; [handleUpload]
    reads it outside any [try], and its response is kept as [null] or an
    object. And the optional [result] of a job can be [null], which the
    page stores as it is. *)

Inductive JobStatus := queued | processing | completed | failed.

(** An optional field, as [JSON.parse] can give it: left out, [null] or
    a value. *)
Inductive Field (A : Type) :=
| absent
| null
| present (a : A).
Arguments absent {A}.
Arguments null {A}.
Arguments present {A} a.

(** The message of the [TypeError] thrown on reading a property of
    [null], in the wording of V8. *)
Definition nullRead (property : string) : string :=
  "Cannot read properties of null (reading '" ++ property ++ "')".

(** A field that the server left out of an object reads as the empty
    string: the page only tests the identifiers for emptiness. *)
Module UploadResponse.
Record fields := { cv_file_id : string; project_file_id : string }.
Inductive t :=
| null
| object (f : fields).
End UploadResponse.

Module EvaluateResponse.
Record t := { id : string; status : JobStatus }.
End EvaluateResponse.

Record Result := {
  cv_match_rate : Q;
  cv_feedback : string;
  project_score : Q;
  project_feedback : string;
  overall_summary : string }.

(** [result?] and [error?] are optional. Of [error] the page only tests
    the truth value: [None] is a field left out or [null]. *)
Module ResultResponse.
Record t := {
  id : string;
  status : JobStatus;
  result : Field Result;
  error : option string }.
End ResultResponse.

(** *** The component's state *)

(** [ResultResponse["status"] | "idle"] *)
Inductive Status := idle | job (s : JobStatus).

(** [ResultResponse["result"] | null]: an object, [undefined] or [null]. *)
Inductive ResultState := resultNull | resultUndefined | resultOf (r : Result).

(** A [File] picked in a file input, by its name. *)
Definition File := string.

(** The values held by [useState]. *)
Record State := {
  cv : option File;
  project : option File;
  cvId : string;
  projectId : string;
  jobDesc : string;
  brief : string;
  status : Status;
  result : ResultState;
  error : string;
  progress : Q }.

(** What one call of [pollResult] creates: its local variables, which the
    interval callback closes over, and the timer that [setInterval]
    registered ([cleared] once [clearInterval] was called on it). *)
Record Interval := {
  jobId : string;
  progressValue : Q;
  startTime : Z;
  cleared : bool }.

(** The page: the component's state and the timers it has registered, in
    the order of their creation; [setInterval] returns the position. *)
Record Page := { state : State; intervals : list Interval }.

Definition initialState : State :=
  {| cv := None; project := None; cvId := ""; projectId := "";
     jobDesc := ""; brief := ""; status := idle; result := resultNull;
     error := ""; progress := 0 |}.

Definition initialPage : Page := {| state := initialState; intervals := [] |}.

(** *** State setters *)

(** The state with one value replaced, and the setter [useState] returns
    for it. *)

Definition withCv (v : option File) (s : State) : State :=
  {| cv := v; project := project s; cvId := cvId s; projectId := projectId s;
     jobDesc := jobDesc s; brief := brief s; status := status s;
     result := result s; error := error s; progress := progress s |}.

Definition withProject (v : option File) (s : State) : State :=
  {| cv := cv s; project := v; cvId := cvId s; projectId := projectId s;
     jobDesc := jobDesc s; brief := brief s; status := status s;
     result := result s; error := error s; progress := progress s |}.

Definition withCvId (v : string) (s : State) : State :=
  {| cv := cv s; project := project s; cvId := v; projectId := projectId s;
     jobDesc := jobDesc s; brief := brief s; status := status s;
     result := result s; error := error s; progress := progress s |}.

Definition withProjectId (v : string) (s : State) : State :=
  {| cv := cv s; project := project s; cvId := cvId s; projectId := v;
     jobDesc := jobDesc s; brief := brief s; status := status s;
     result := result s; error := error s; progress := progress s |}.

Definition withJobDesc (v : string) (s : State) : State :=
  {| cv := cv s; project := project s; cvId := cvId s; projectId := projectId s;
     jobDesc := v; brief := brief s; status := status s;
     result := result s; error := error s; progress := progress s |}.

Definition withBrief (v : string) (s : State) : State :=
  {| cv := cv s; project := project s; cvId := cvId s; projectId := projectId s;
     jobDesc := jobDesc s; brief := v; status := status s;
     result := result s; error := error s; progress := progress s |}.

Definition withStatus (v : Status) (s : State) : State :=
  {| cv := cv s; project := project s; cvId := cvId s; projectId := projectId s;
     jobDesc := jobDesc s; brief := brief s; status := v;
     result := result s; error := error s; progress := progress s |}.

Definition withResult (v : ResultState) (s : State) : State :=
  {| cv := cv s; project := project s; cvId := cvId s; projectId := projectId s;
     jobDesc := jobDesc s; brief := brief s; status := status s;
     result := v; error := error s; progress := progress s |}.

Definition withError (v : string) (s : State) : State :=
  {| cv := cv s; project := project s; cvId := cvId s; projectId := projectId s;
     jobDesc := jobDesc s; brief := brief s; status := status s;
     result := result s; error := v; progress := progress s |}.

Definition withProgress (v : Q) (s : State) : State :=
  {| cv := cv s; project := project s; cvId := cvId s; projectId := projectId s;
     jobDesc := jobDesc s; brief := brief s; status := status s;
     result := result s; error := error s; progress := v |}.

Definition onState (f : State -> State) : Handler Page unit :=
  modify (fun p => {| state := f (state p); intervals := intervals p |}).

Definition setCv (v : option File) : Handler Page unit := onState (withCv v).
Definition setProject (v : option File) : Handler Page unit := onState (withProject v).
Definition setCvId (v : string) : Handler Page unit := onState (withCvId v).
Definition setProjectId (v : string) : Handler Page unit := onState (withProjectId v).
Definition setJobDesc (v : string) : Handler Page unit := onState (withJobDesc v).
Definition setBrief (v : string) : Handler Page unit := onState (withBrief v).
Definition setStatus (v : Status) : Handler Page unit := onState (withStatus v).
Definition setResult (v : ResultState) : Handler Page unit := onState (withResult v).
Definition setError (v : string) : Handler Page unit := onState (withError v).
Definition setProgress (v : Q) : Handler Page unit := onState (withProgress v).

(** *** Timers *)

(** [setInterval(callback, 2500)]: registers the timer of a fresh closure
    and returns its identifier. *)
Definition setInterval (closure : Interval) : Handler Page nat :=
  fun p => Normal (length (intervals p))
                  {| state := state p; intervals := intervals p ++ [closure] |}.

Definition markCleared (c : Interval) : Interval :=
  {| jobId := jobId c; progressValue := progressValue c;
     startTime := startTime c; cleared := true |}.

Definition withProgressValue (v : Q) (c : Interval) : Interval :=
  {| jobId := jobId c; progressValue := v;
     startTime := startTime c; cleared := cleared c |}.

Definition onInterval (f : Interval -> Interval) (interval : nat)
  : Handler Page unit :=
  modify (fun p =>
    {| state := state p; intervals := alter f interval (intervals p) |}).

(** [clearInterval(interval)]; nothing happens on an unknown identifier. *)
Definition clearInterval (interval : nat) : Handler Page unit :=
  onInterval markCleared interval.

(** Reading and assigning the variables of the closure of timer
    [interval]. *)
Definition getProgressValue (interval : nat) : Handler Page Q :=
  gets (fun p => default 0%Q (progressValue <$> intervals p !! interval)).

Definition getStartTime (interval : nat) : Handler Page Z :=
  gets (fun p => default 0%Z (startTime <$> intervals p !! interval)).

Definition assignProgressValue (interval : nat) (v : Q) : Handler Page unit :=
  onInterval (withProgressValue v) interval.

(** *** The handlers *)

(** [handleUpload], up to its [await]: [true] when the request was sent. *)
Definition handleUpload_before : Handler Page bool :=
  s ← gets state;
  match cv s, project s with
  | Some _, Some _ => setError "";; mret true
  | _, _ => setError "Select both CV and Project files";; mret false
  end.

(** [handleUpload], from its [await] on; [fetch] is what
    [fetchJSON<UploadResponse>] settled to. Reading [res.cv_file_id] of
    a [null] response throws before any identifier is set. *)
Definition handleUpload_after (fetch : Outcome UploadResponse.t)
  : Handler Page unit :=
  res ← await fetch;
  match res with
  | UploadResponse.null => throw (nullRead "cv_file_id")
  | UploadResponse.object f =>
      setCvId (UploadResponse.cv_file_id f);;
      setProjectId (UploadResponse.project_file_id f)
  end.

Definition handleUpload (fetch : Outcome UploadResponse.t) : Handler Page unit :=
  sent ← handleUpload_before;
  if sent : bool then handleUpload_after fetch else mret tt.

(** [pollResult(id)], called at time [now]. *)
Definition pollResult (id : string) (now : Z) : Handler Page unit :=
  interval ← setInterval
    {| jobId := id; progressValue := 0; startTime := now; cleared := false |};
  mret tt.

Definition handleEvaluate_before : Handler Page unit :=
  setError "";;
  setStatus (job queued);;
  setResult resultNull;;
  setProgress 0.

(** [handleEvaluate], from its [await] on; [fetch] is what
    [fetchJSON<EvaluateResponse>] settled to, at time [now]. *)
Definition handleEvaluate_after (fetch : Outcome EvaluateResponse.t) (now : Z)
  : Handler Page unit :=
  tryCatch
    (res ← await fetch;
     pollResult (EvaluateResponse.id res) now)
    (fun message => setError message).

Definition handleEvaluate (fetch : Outcome EvaluateResponse.t) (now : Z)
  : Handler Page unit :=
  handleEvaluate_before;;
  handleEvaluate_after fetch now.

Definition maxWait : Z := 90000.

Definition timeoutMessage : string :=
  "Evaluation timed out. Please try again later.".

(** [res.result!]: the assertion is erased, so that the value is stored
    as it is: an absent field reads as [undefined], a [null] stays
    [null]. *)
Definition nonNull (r : Field Result) : ResultState :=
  match r with
  | present v => resultOf v
  | absent => resultUndefined
  | null => resultNull
  end.

(** [e || fallback] on an optional string: absent and empty are falsy. *)
Definition orElse (e : option string) (fallback : string) : string :=
  match e with
  | Some m => if String.eqb m "" then fallback else m
  | None => fallback
  end.

(** The [try] statement of the callback of timer [interval], from its
    [await] on: [fetch] is what [fetchJSON<ResultResponse>] settled to and
    [random] what [Math.random()] returns. *)
Definition classify (interval : nat) (fetch : Outcome ResultResponse.t)
    (random : Q) : Handler Page unit :=
  tryCatch
    (res ← await fetch;
     setStatus (job (ResultResponse.status res));;
     match ResultResponse.status res with
     | completed =>
         setResult (nonNull (ResultResponse.result res));;
         setProgress 100;;
         clearInterval interval
     | failed =>
         setError (orElse (ResultResponse.error res) "Evaluation failed");;
         clearInterval interval
     | _ =>
         progressValue ← getProgressValue interval;
         assignProgressValue interval (Qmin (progressValue + random * 8) 95);;
         progressValue ← getProgressValue interval;
         setProgress progressValue
     end)
    (fun message =>
       if String.eqb message "404" then
         progressValue ← getProgressValue interval;
         assignProgressValue interval (Qmin (progressValue + random * 5) 85);;
         progressValue ← getProgressValue interval;
         setProgress progressValue
       else
         setError message;;
         clearInterval interval).

(** The [if] statement that ends the callback; [now] is what [Date.now()]
    returns. *)
Definition checkTimeout (interval : nat) (now : Z) : Handler Page unit :=
  startTime ← getStartTime interval;
  if (now - startTime >? maxWait)%Z then
    setError timeoutMessage;;
    clearInterval interval
  else mret tt.

(** The callback of timer [interval], from its [await] on. *)
Definition intervalCallback (interval : nat) (fetch : Outcome ResultResponse.t)
    (random : Q) (now : Z) : Handler Page unit :=
  classify interval fetch random;;
  checkTimeout interval now.

(** *** One polling loop, its ticks in sequence *)

(** What one tick of a loop receives. *)
Record Tick := { response : Outcome ResultResponse.t; random : Q; now : Z }.

(** Whether timer [interval] still fires. *)
Definition active (interval : nat) (p : Page) : bool :=
  match intervals p !! interval with
  | Some c => negb (cleared c)
  | None => false
  end.

Definition tick (interval : nat) (t : Tick) (p : Page) : Page :=
  finalState (intervalCallback interval (response t) (random t) (now t) p).

(** The ticks of timer [interval] one after the other, each settled before
    the next one fires; a cleared timer fires no more. *)
Fixpoint pollLoop (interval : nat) (ticks : list Tick) (p : Page) : Page :=
  match ticks with
  | [] => p
  | t :: rest =>
      if active interval p then pollLoop interval rest (tick interval t p)
      else p
  end.

(** [Math.random()] returns a number in [0, 1). *)
Definition unitInterval (random : Q) : Prop := (0 <= random /\ random < 1)%Q.

Definition inUnitInterval (random : Q) : bool :=
  Qle_bool 0 random && negb (Qle_bool 1 random).

(** *** The page in the browser: events and suspended handlers *)

(** An [async] function waiting at its [await]. *)
Inductive Suspended :=
| awaitingUpload
| awaitingEvaluate
| awaitingResult (interval : nat).

Record Runtime := {
  page : Page;
  suspended : list Suspended;
  unhandledRejections : list string }.

Definition initialRuntime : Runtime :=
  {| page := initialPage; suspended := []; unhandledRejections := [] |}.

Inductive Event :=
| selectCv (file : option File)
| selectProject (file : option File)
| typeJobDesc (text : string)
| typeBrief (text : string)
| clickUpload
| clickEvaluate
| timerFires (interval : nat)
| uploadSettles (k : nat) (fetch : Outcome UploadResponse.t)
| evaluateSettles (k : nat) (fetch : Outcome EvaluateResponse.t) (now : Z)
| resultSettles (k : nat) (fetch : Outcome ResultResponse.t) (random : Q) (now : Z).

(** Runs a handler on the page; an exception that leaves it is an
    unhandled rejection. *)
Definition run {A} (h : Handler Page A) (r : Runtime) : option A * Runtime :=
  match h (page r) with
  | Normal a p =>
      (Some a, {| page := p; suspended := suspended r;
                  unhandledRejections := unhandledRejections r |})
  | Thrown e p =>
      (None, {| page := p; suspended := suspended r;
                unhandledRejections := unhandledRejections r ++ [e] |})
  end.

Definition suspend (c : Suspended) (r : Runtime) : Runtime :=
  {| page := page r; suspended := suspended r ++ [c];
     unhandledRejections := unhandledRejections r |}.

Definition resume (k : nat) (r : Runtime) : Runtime :=
  {| page := page r; suspended := delete k (suspended r);
     unhandledRejections := unhandledRejections r |}.

(** [disabled={!cv || !project}] *)
Definition uploadDisabled (s : State) : bool :=
  negb (bool_decide (is_Some (cv s))) || negb (bool_decide (is_Some (project s))).

(** [disabled={!cvId || !projectId || !jobDesc || !brief}] *)
Definition evaluateDisabled (s : State) : bool :=
  String.eqb (cvId s) "" || String.eqb (projectId s) ""
  || String.eqb (jobDesc s) "" || String.eqb (brief s) "".

(** One event; [None] when it cannot happen in [r] (a disabled button, a
    cleared timer, no such suspended handler, no such random number). *)
Definition step (e : Event) (r : Runtime) : option Runtime :=
  match e with
  | selectCv f => Some (run (setCv f) r).2
  | selectProject f => Some (run (setProject f) r).2
  | typeJobDesc v => Some (run (setJobDesc v) r).2
  | typeBrief v => Some (run (setBrief v) r).2
  | clickUpload =>
      if uploadDisabled (state (page r)) then None
      else
        match run handleUpload_before r with
        | (Some true, r') => Some (suspend awaitingUpload r')
        | (_, r') => Some r'
        end
  | clickEvaluate =>
      if evaluateDisabled (state (page r)) then None
      else Some (suspend awaitingEvaluate (run handleEvaluate_before r).2)
  | timerFires i =>
      if active i (page r) then Some (suspend (awaitingResult i) r) else None
  | uploadSettles k fetch =>
      match suspended r !! k with
      | Some awaitingUpload => Some (run (handleUpload_after fetch) (resume k r)).2
      | _ => None
      end
  | evaluateSettles k fetch now =>
      match suspended r !! k with
      | Some awaitingEvaluate =>
          Some (run (handleEvaluate_after fetch now) (resume k r)).2
      | _ => None
      end
  | resultSettles k fetch random now =>
      match suspended r !! k with
      | Some (awaitingResult i) =>
          if inUnitInterval random
          then Some (run (intervalCallback i fetch random now) (resume k r)).2
          else None
      | _ => None
      end
  end.

(** A sequence of events from [r]; [None] when one of them cannot happen. *)
Fixpoint exec (events : list Event) (r : Runtime) : option Runtime :=
  match events with
  | [] => Some r
  | e :: rest =>
      match step e r with
      | Some r' => exec rest r'
      | None => None
      end
  end.

Definition reachable (r : Runtime) : Prop :=
  exists events, exec events initialRuntime = Some r.

(** The timers that still fire. *)
Definition activeIntervals (p : Page) : nat :=
  length (filter (fun c => cleared c = false) (intervals p)).

(** The progress values a loop shows: the one it starts from, then the
    one after each tick that runs. *)
Fixpoint progressTrace (interval : nat) (ticks : list Tick) (p : Page) : list Q :=
  progress (state p) ::
  match ticks with
  | [] => []
  | t :: rest =>
      if active interval p then progressTrace interval rest (tick interval t p)
      else []
  end.

(** Whether a tick's request failed with the error the callback retries on. *)
Definition isNotFound (t : Tick) : bool :=
  match response t with
  | Rejected message => String.eqb message "404"
  | Resolved _ => false
  end.

(** Whether a tick leaves the classification of its response without
    stopping the loop: a queued or processing job, or the retried error. *)
Definition keepsPolling (t : Tick) : bool :=
  match response t with
  | Resolved res =>
      match ResultResponse.status res with
      | queued | processing => true
      | completed | failed => false
      end
  | Rejected message => String.eqb message "404"
  end.

(** *** Properties of the list of timers *)

(** No closure holds a progress estimate above 95. *)
Definition bounded (l : list Interval) : Prop :=
  Forall (fun c => (progressValue c <= 95)%Q) l.

(** Timer [interval] exists and was cleared. *)
Definition clearedAt (interval : nat) (l : list Interval) : Prop :=
  exists c, l !! interval = Some c /\ cleared c = true.

(** The estimate that the closure of timer [interval] holds. *)
Definition estimate (interval : nat) (p : Page) : Q :=
  default 0%Q (progressValue <$> intervals p !! interval).

(** Every tick of the run that fails with the retried error finds the
    estimate of its loop at most 85, the cap of that branch. *)
Fixpoint retriesBelowCap (interval : nat) (ticks : list Tick) (p : Page) : Prop :=
  match ticks with
  | [] => True
  | t :: rest =>
      active interval p = true ->
      (isNotFound t = true -> (estimate interval p <= 85)%Q)
      /\ retriesBelowCap interval rest (tick interval t p)
  end.

(** What a loop keeps while it runs: its closure holds an estimate of at
    most [cap] that the progress shown does not exceed. *)
Definition tracks (cap : Q) (interval : nat) (p : Page) : Prop :=
  exists c, intervals p !! interval = Some c
    /\ (progressValue c <= cap)%Q
    /\ (progress (state p) <= progressValue c)%Q.

End Evaluation.

(** ** Concrete inputs *)

Module Scenario.
Import Evaluation.

Definition uploaded : UploadResponse.t :=
  UploadResponse.object
    {| UploadResponse.cv_file_id := "cv-1";
       UploadResponse.project_file_id := "report-1" |}.

Definition submitted (id : string) : EvaluateResponse.t :=
  {| EvaluateResponse.id := id; EvaluateResponse.status := queued |}.

(** The user picks both files, uploads them, fills in both texts and
    starts an evaluation, which the backend accepts at time 0. *)
Definition startEvents : list Event :=
  [ selectCv (Some "cv.pdf");
    selectProject (Some "report.pdf");
    clickUpload;
    uploadSettles 0 (Resolved uploaded);
    typeJobDesc "Backend engineer";
    typeBrief "Build an evaluator";
    clickEvaluate;
    evaluateSettles 0 (Resolved (submitted "job-1")) 0 ].

(** The same, and a second evaluation started one second later. *)
Definition twoEvaluations : list Event :=
  startEvents ++
  [ clickEvaluate;
    evaluateSettles 0 (Resolved (submitted "job-2")) 1000 ].

(** The page once both files are picked. *)
Definition pickedPage : Page :=
  {| state := withProject (Some "report.pdf") (withCv (Some "cv.pdf") initialState);
     intervals := [] |}.

Definition filledState : State :=
  {| cv := Some "cv.pdf"; project := Some "report.pdf";
     cvId := "cv-1"; projectId := "report-1";
     jobDesc := "Backend engineer"; brief := "Build an evaluator";
     status := job queued; result := resultNull; error := ""; progress := 0 |}.

Definition loop (id : string) (start : Z) : Interval :=
  {| jobId := id; progressValue := 0; startTime := start; cleared := false |}.

(** The page once [startEvents] have happened. *)
Definition pollingPage : Page :=
  {| state := filledState; intervals := [loop "job-1" 0] |}.

Definition pollingRuntime : Runtime :=
  {| page := pollingPage; suspended := []; unhandledRejections := [] |}.

Definition answer (s : JobStatus) (r : Field Result) (e : option string)
  : Outcome ResultResponse.t :=
  Resolved {| ResultResponse.id := "job-1"; ResultResponse.status := s;
              ResultResponse.result := r; ResultResponse.error := e |}.

Definition scores : Result :=
  {| cv_match_rate := 82 # 100; cv_feedback := "Strong backend profile";
     project_score := 15 # 2; project_feedback := "Clean pipeline";
     overall_summary := "Good fit" |}.

(** A processing answer, [n] ticks of 2.5 s after the start, with
    [Math.random()] returning 15/16. *)
Definition processingTick (n : Z) : Tick :=
  {| response := answer processing absent None; random := 15 # 16;
     now := 2500 * n |}.

Definition notFoundTick (n : Z) : Tick :=
  {| response := Rejected "404"; random := 1 # 2; now := 2500 * n |}.

(** The timer fires twice before the first response comes: the first
    request is answered by a completed job, the second one, sent before
    that, by a processing job. *)
Definition overlappingTicks : list Event :=
  startEvents ++
  [ timerFires 0;
    timerFires 0;
    resultSettles 0 (answer completed (present scores) None) (1 # 2) 5100;
    resultSettles 0 (answer processing absent None) (1 # 2) 5200 ].

(** Twelve processing ticks: the estimate reaches 90. *)
Definition twelveTicks : list Tick :=
  map processingTick [1; 2; 3; 4; 5; 6; 7; 8; 9; 10; 11; 12]%Z.

(** A tick 90001 ms after the start. *)
Definition lateTick (fetch : Outcome ResultResponse.t) : Tick :=
  {| response := fetch; random := 1 # 2; now := 90001 |}.



(** A 502 with an empty body and, as over HTTP/2, an empty status text. *)
Definition badGateway : Http.Response :=
  {| Http.status := 502; Http.statusText := ""; Http.body := Http.Empty |}.

(** The page once [twoEvaluations] have happened. *)
Definition twoLoops : Runtime :=
  {| page := {| state := filledState;
                intervals := [loop "job-1" 0; loop "job-2" 1000] |};
     suspended := []; unhandledRejections := [] |}.

(** The polling page once the user has clicked on the button again, the
    second request still awaited. *)
Definition resubmitting : Runtime :=
  {| page := pollingPage; suspended := [awaitingEvaluate];
     unhandledRejections := [] |}.

(** A tick in time: 2.5 s after the start, [Math.random()] returning 1/2. *)
Definition firstTick (fetch : Outcome ResultResponse.t) : Tick :=
  {| response := fetch; random := 1 # 2; now := 2500 |}.

(** Two 404 errors, then a queued job. *)
Definition retriedRun : list Tick :=
  [notFoundTick 1; notFoundTick 2] ++
  [{| response := answer queued absent None; random := 1 # 2; now := 7500 |}].

(** Two evaluations, then two processing ticks of the first loop, with
    [Math.random()] returning 1/2: the estimate of the first loop and
    the progress shown are 8, the estimate of the second loop is 0. *)
Definition firstLoopAhead : list Event :=
  twoEvaluations ++
  [ timerFires 0;
    resultSettles 0 (answer processing absent None) (1 # 2) 2500;
    timerFires 0;
    resultSettles 0 (answer processing absent None) (1 # 2) 5000 ].

(** One evaluation whose loop ticks twice on a processing job, then the
    button clicked again: the progress shown is back at 0, the estimate
    of the loop is 8. *)
Definition restarted : list Event :=
  startEvents ++
  [ timerFires 0;
    resultSettles 0 (answer processing absent None) (1 # 2) 2500;
    timerFires 0;
    resultSettles 0 (answer processing absent None) (1 # 2) 5000;
    clickEvaluate ].

(** A 404 whose body is the JSON text of an object with the single
    property [error], the string 404. *)
Definition notFoundNamed404 : Http.Response :=
  {| Http.status := 404; Http.statusText := "Not Found";
     Http.body := Http.Json (JS.Obj {[ "error" := JS.Str "404" ]}) |}.

(** A 404 with an empty body and an empty status text. *)
Definition bareNotFound : Http.Response :=
  {| Http.status := 404; Http.statusText := ""; Http.body := Http.Empty |}.

(** A 404 whose body names the error. *)
Definition unknownUser : Http.Response :=
  {| Http.status := 404; Http.statusText := "Not Found";
     Http.body := Http.Json (JS.Obj {[ "error" := JS.Str "Unknown user" ]}) |}.

Definition loginPage : Login.Page :=
  {| Login.email := "user@example.com"; Login.password := "secret";
     Login.loading := false; Login.error := "";
     Login.localStorage := ∅; Login.route := "/" |}.

End Scenario.

(** ** The session, as the evaluation page reads and ends it *)

Module Session.

(** The [token] and [tenantId] of the evaluation component, the
    browser's [localStorage] and the route the router was last pushed
    to. *)
Record Browser := {
  token : string;
  tenantId : string;
  localStorage : gmap string string;
  route : string }.

Definition setToken (v : string) : Handler Browser unit :=
  modify (fun b =>
    {| token := v; tenantId := tenantId b; localStorage := localStorage b;
       route := route b |}).

Definition setTenantId (v : string) : Handler Browser unit :=
  modify (fun b =>
    {| token := token b; tenantId := v; localStorage := localStorage b;
       route := route b |}).

(** [localStorage.getItem(key)]: [None] is the [null] of a missing key. *)
Definition getItem (key : string) : Handler Browser (option string) :=
  gets (fun b => localStorage b !! key).

Definition removeItem (key : string) : Handler Browser unit :=
  modify (fun b =>
    {| token := token b; tenantId := tenantId b;
       localStorage := delete key (localStorage b); route := route b |}).

Definition push (path : string) : Handler Browser unit :=
  modify (fun b =>
    {| token := token b; tenantId := tenantId b;
       localStorage := localStorage b; route := path |}).

(** [v || ""] on what [getItem] returns: [null] and the empty string are
    falsy. *)
Definition orEmpty (v : option string) : string := default "" v.

(** The effect that the evaluation page runs when it mounts. *)
Definition useEffect : Handler Browser unit :=
  stored ← getItem "authToken";
  let t := orEmpty stored in
  stored ← getItem "tenantId";
  let tid := orEmpty stored in
  (if String.eqb t "" || String.eqb tid "" then push "/" else mret tt);;
  setToken t;;
  setTenantId tid.

Definition handleLogout : Handler Browser unit :=
  removeItem "authToken";;
  removeItem "tenantId";;
  push "/".

(** The evaluation component, freshly created in the browser as the
    login page left it. *)
Definition opened (p : Login.Page) : Browser :=
  {| token := ""; tenantId := "";
     localStorage := Login.localStorage p; route := Login.route p |}.

End Session.

(** ** What the evaluation page shows *)

Module View.
Import Evaluation.

(** The conditional parts of the page: for each, whether it is rendered
    and with what. The numbers of the result are kept as they are, not
    as the page formats them. *)
Record t := {
  queuedNotice : bool;               (* "Queued for evaluation..." *)
  progressBar : option Q;            (* the bar, by its width in percent *)
  failedNotice : option string;      (* the paragraph of a failed job *)
  resultCards : option Result;       (* the three cards of the result *)
  errorNotice : option string;       (* the paragraph under the results *)
  uploadButtonDisabled : bool;
  evaluateButtonDisabled : bool }.

Definition render (s : State) : t :=
  {| queuedNotice :=
       match status s with job queued => true | _ => false end;
     progressBar :=
       match status s with job processing => Some (progress s) | _ => None end;
     failedNotice :=
       match status s with job failed => Some (error s) | _ => None end;
     resultCards :=
       match status s, result s with
       | job completed, resultOf r => Some r
       | _, _ => None
       end;
     errorNotice :=
       if String.eqb (error s) "" then None
       else match status s with job failed => None | _ => Some (error s) end;
     uploadButtonDisabled := uploadDisabled s;
     evaluateButtonDisabled := evaluateDisabled s |}.

(** Nothing but the forms is on the page. *)
Definition blank (v : t) : Prop :=
  queuedNotice v = false /\ progressBar v = None /\ failedNotice v = None
  /\ resultCards v = None /\ errorNotice v = None.

End View.

(** ** Runs of the page *)

Module Run.
Import Evaluation.

(** The delay given to [setInterval]. *)
Definition period : Z := 2500.

(** The ticks of a loop started at [start] come no earlier than the timer
    fires: the k-th of them at least k periods after the start. *)
Definition onSchedule (start : Z) (ticks : list Tick) : Prop :=
  forall k tk, ticks !! k = Some tk ->
    (start + period * Z.of_nat (S k) <= now tk)%Z.

(** The messages of the errors that the uploads ended with, in the order
    of the events: the error of a request that failed, and the
    [TypeError] of a request answered by [null]. *)
Fixpoint uploadFailures (events : list Event) : list string :=
  match events with
  | [] => []
  | uploadSettles _ (Rejected message) :: rest => message :: uploadFailures rest
  | uploadSettles _ (Resolved UploadResponse.null) :: rest =>
      nullRead "cv_file_id" :: uploadFailures rest
  | _ :: rest => uploadFailures rest
  end.

(** The estimates of the closures lie in [0, 95], and the progress shown
    lies in [0, 95] or else is the 100 that a completed response set,
    under the status completed or, after a failed response of another
    loop, failed. *)
Definition progressInRange (p : Page) : Prop :=
  Forall (fun c => (0 <= progressValue c)%Q /\ (progressValue c <= 95)%Q)
         (intervals p)
  /\ (((0 <= progress (state p))%Q /\ (progress (state p) <= 95)%Q)
      \/ (progress (state p) = 100%Q
          /\ (status (state p) = job completed \/ status (state p) = job failed))).

End Run.

(** ** More concrete inputs *)

Module Sample.
Import Evaluation Scenario.

(** Forty processing answers, the n-th exactly n periods after the start
    of the loop of [pollingPage]. *)
Definition punctualTicks : list Tick :=
  map (fun n => {| response := answer processing absent None; random := 1 # 2;
                   now := 2500 * n |})
      [1; 2; 3; 4; 5; 6; 7; 8; 9; 10; 11; 12; 13; 14; 15; 16; 17; 18; 19; 20;
       21; 22; 23; 24; 25; 26; 27; 28; 29; 30; 31; 32; 33; 34; 35; 36; 37; 38;
       39; 40]%Z.

(** Three uploads end with an error, the last of them answered by
    [null]; the evaluation request fails too. *)
Definition failingEvents : list Event :=
  [ selectCv (Some "cv.pdf");
    selectProject (Some "report.pdf");
    clickUpload;
    uploadSettles 0 (Rejected "Failed to fetch");
    clickUpload;
    uploadSettles 0 (Resolved uploaded);
    typeJobDesc "Backend engineer";
    typeBrief "Build an evaluator";
    clickEvaluate;
    evaluateSettles 0 (Rejected "Internal Server Error") 0;
    clickUpload;
    uploadSettles 0 (Rejected "Bad Gateway");
    clickUpload;
    uploadSettles 0 (Resolved UploadResponse.null) ].

End Sample.
(** * Properties *)

Import Evaluation Scenario.
#[local] Open Scope list_scope.

(** *** The callback, by the outcome of its request *)

(** Unfolds a handler down to the state it builds. *)
Ltac handler_unfold :=
  cbv [intervalCallback classify checkTimeout
       handleUpload handleUpload_before handleUpload_after
       handleEvaluate handleEvaluate_before handleEvaluate_after pollResult
       tryCatch tryFinally await throw modify gets mbind mret
       Handler_bind Handler_ret onState onInterval
       setCv setProject setCvId setProjectId
       setJobDesc setBrief setStatus setResult setError setProgress
       setInterval clearInterval getProgressValue getStartTime
       assignProgressValue tick finalState uncaught].

(** The two statements of the callback of a timer [i] whose closure is
    [c]. *)
Section Callback.
Context (i : nat) (p : Page) (c : Interval).
Hypothesis Hc : intervals p !! i = Some c.

Lemma checkTimeout_late now :
  (now - startTime c > maxWait)%Z ->
  checkTimeout i now p =
  Normal tt {| state := withError timeoutMessage (state p);
               intervals := alter markCleared i (intervals p) |}.
Proof.
  intros Hlate. handler_unfold. rewrite Hc. simpl.
  destruct (Z.gtb_spec (now - startTime c) maxWait) as [_|Hle]; [done | lia].
Qed.

Lemma checkTimeout_in_time now :
  (now - startTime c <= maxWait)%Z ->
  checkTimeout i now p = Normal tt p.
Proof.
  intros Hin. handler_unfold. rewrite Hc. simpl.
  destruct (Z.gtb_spec (now - startTime c) maxWait) as [Hgt|_]; [lia | done].
Qed.

Lemma classify_in_progress res random :
  ResultResponse.status res = queued \/ ResultResponse.status res = processing ->
  classify i (Resolved res) random p =
  Normal tt
    {| state :=
         withProgress (Qmin (progressValue c + random * 8) 95)
           (withStatus (job (ResultResponse.status res)) (state p));
       intervals :=
         alter (withProgressValue (Qmin (progressValue c + random * 8) 95))
               i (intervals p) |}.
Proof.
  intros Hs. handler_unfold.
  destruct Hs as [-> | ->]; simpl; rewrite list_lookup_alter_eq, Hc; done.
Qed.

Lemma classify_not_found random :
  classify i (Rejected "404") random p =
  Normal tt
    {| state := withProgress (Qmin (progressValue c + random * 5) 85) (state p);
       intervals :=
         alter (withProgressValue (Qmin (progressValue c + random * 5) 85))
               i (intervals p) |}.
Proof.
  handler_unfold. simpl. rewrite list_lookup_alter_eq, Hc. done.
Qed.

End Callback.

Lemma classify_completed i res random p :
  ResultResponse.status res = completed ->
  classify i (Resolved res) random p =
  Normal tt {| state := withProgress 100
                 (withResult (nonNull (ResultResponse.result res))
                    (withStatus (job completed) (state p)));
               intervals := alter markCleared i (intervals p) |}.
Proof. intros Hs. handler_unfold. rewrite Hs. done. Qed.

Lemma classify_failed i res random p :
  ResultResponse.status res = failed ->
  classify i (Resolved res) random p =
  Normal tt {| state := withError (orElse (ResultResponse.error res) "Evaluation failed")
                 (withStatus (job failed) (state p));
               intervals := alter markCleared i (intervals p) |}.
Proof. intros Hs. handler_unfold. rewrite Hs. done. Qed.

Lemma classify_request_error i message random p :
  message <> "404" ->
  classify i (Rejected message) random p =
  Normal tt {| state := withError message (state p);
               intervals := alter markCleared i (intervals p) |}.
Proof.
  intros Hm. handler_unfold.
  destruct (String.eqb_spec message "404"); [done | done].
Qed.

(** The callback always ends normally. *)
Lemma intervalCallback_page i fetch random now p :
  exists p', intervalCallback i fetch random now p = Normal tt p'.
Proof.
  handler_unfold.
  destruct fetch as [res|m].
  - destruct (ResultResponse.status res); simpl;
      match goal with |- context [(?a >? ?b)%Z] => destruct (a >? b)%Z end; eauto.
  - destruct (String.eqb m "404"); simpl;
      match goal with |- context [(?a >? ?b)%Z] => destruct (a >? b)%Z end; eauto.
Qed.

(** *** Invariants of the list of timers *)

(** A property of the list of timers that survives the three ways the
    page changes it (clearing a timer, assigning an estimate of at most
    95 to a closure, registering a fresh timer) holds in every state the
    events lead to. *)
Section IntervalInvariant.
Variable Inv : list Interval -> Prop.
Hypothesis Inv_clear : forall l i, Inv l -> Inv (alter markCleared i l).
Hypothesis Inv_assign : forall l i v, (v <= 95)%Q -> Inv l -> Inv (alter (withProgressValue v) i l).
Hypothesis Inv_fresh : forall l id now, Inv l ->
  Inv (l ++ [{| jobId := id; progressValue := 0; startTime := now; cleared := false |}]).

Lemma Qmin_le_95 x : (Qmin x 95 <= 95)%Q.
Proof. apply Q.le_min_r. Qed.

Lemma Qmin_85_le_95 x : (Qmin x 85 <= 95)%Q.
Proof. eapply Qle_trans; [apply Q.le_min_r | done]. Qed.

Lemma intervalCallback_invariant i fetch random now p :
  Inv (intervals p) ->
  Inv (intervals (finalState (intervalCallback i fetch random now p))).
Proof using Inv_clear Inv_assign.
  intros HQ. handler_unfold.
  destruct fetch as [res|m].
  - destruct (ResultResponse.status res); simpl;
      match goal with |- context [(?a >? ?b)%Z] => destruct (a >? b)%Z end; simpl;
      auto using Qmin_le_95.
  - destruct (String.eqb m "404"); simpl;
      match goal with |- context [(?a >? ?b)%Z] => destruct (a >? b)%Z end; simpl;
      auto using Qmin_85_le_95.
Qed.

Lemma step_invariant e r r' :
  step e r = Some r' -> Inv (intervals (page r)) -> Inv (intervals (page r')).
Proof using Inv_clear Inv_assign Inv_fresh.
  intros Hstep HQ.
  destruct e as [f|f|v|v| | |i|k fetch|k fetch t|k fetch x t]; simpl in Hstep.
  - injection Hstep as <-. done.
  - injection Hstep as <-. done.
  - injection Hstep as <-. done.
  - injection Hstep as <-. done.
  - destruct (uploadDisabled _); [done|].
    unfold run in Hstep. handler_unfold. revert Hstep. handler_unfold.
    destruct (cv (state (page r))), (project (state (page r))); simpl;
      intros [= <-]; done.
  - destruct (evaluateDisabled _); [done|]. injection Hstep as <-. done.
  - destruct (active _ _); [|done]. injection Hstep as <-. done.
  - destruct (suspended r !! k) as [[]|]; try done. injection Hstep as <-.
    unfold run. handler_unfold. destruct fetch as [[|f]|m]; done.
  - destruct (suspended r !! k) as [[]|]; try done. injection Hstep as <-.
    unfold run. handler_unfold. destruct fetch; simpl; auto.
  - destruct (suspended r !! k) as [[| |i]|]; try done.
    destruct (inUnitInterval x); [|done]. injection Hstep as <-.
    unfold run.
    pose proof (intervalCallback_invariant i fetch x t (page (resume k r)) HQ) as H.
    destruct (intervalCallback_page i fetch x t (page (resume k r))) as [p' Hp'].
    rewrite Hp' in *. done.
Qed.

Lemma exec_invariant events : forall r r',
  exec events r = Some r' -> Inv (intervals (page r)) -> Inv (intervals (page r')).
Proof using Inv_clear Inv_assign Inv_fresh.
  induction events as [|e events IH]; intros r r' Hexec HQ; simpl in Hexec.
  - by injection Hexec as <-.
  - destruct (step e r) as [r1|] eqn:Hstep; [|done].
    eauto using step_invariant.
Qed.

End IntervalInvariant.

Lemma exec_app events1 : forall events2 r,
  exec (events1 ++ events2) r = exec events1 r ≫= exec events2.
Proof.
  induction events1 as [|e events1 IH]; intros events2 r; simpl; [done|].
  destruct (step e r); simpl; [apply IH | done].
Qed.

(** No estimate exceeds 95. *)
Lemma exec_bounded events r r' :
  exec events r = Some r' ->
  bounded (intervals (page r)) -> bounded (intervals (page r')).
Proof.
  apply exec_invariant; unfold bounded.
  - intros l i Hl. apply Forall_alter; [done|]. intros c _ Hc. done.
  - intros l i v Hv Hl. apply Forall_alter; [done|]. intros c _ _. done.
  - intros l id t Hl. apply Forall_app. split; [done|].
    apply Forall_singleton. done.
Qed.

Lemma reachable_bounded r : reachable r -> bounded (intervals (page r)).
Proof.
  intros [events Hexec]. eapply exec_bounded; [exact Hexec|]. constructor.
Qed.

Lemma reachable_progressValue r i c :
  reachable r -> intervals (page r) !! i = Some c -> (progressValue c <= 95)%Q.
Proof.
  intros Hr Hc. pose proof (reachable_bounded r Hr) as Hb.
  unfold bounded in Hb. rewrite Forall_lookup in Hb. eauto.
Qed.

(** A cleared timer stays cleared. *)
Lemma exec_clearedAt i events r r' :
  exec events r = Some r' ->
  clearedAt i (intervals (page r)) -> clearedAt i (intervals (page r')).
Proof.
  apply exec_invariant; unfold clearedAt.
  - intros l j (c & Hc & Hcl).
    destruct (decide (j = i)) as [->|Hne].
    + exists (markCleared c). rewrite list_lookup_alter_eq, Hc. done.
    + exists c. rewrite list_lookup_alter_ne by done. done.
  - intros l j v _ (c & Hc & Hcl).
    destruct (decide (j = i)) as [->|Hne].
    + exists (withProgressValue v c). rewrite list_lookup_alter_eq, Hc. done.
    + exists c. rewrite list_lookup_alter_ne by done. done.
  - intros l id t (c & Hc & Hcl). exists c. split; [|done].
    rewrite lookup_app_l; [done|]. eapply lookup_lt_Some; eauto.
Qed.

Lemma clearedAt_inactive i p : clearedAt i (intervals p) -> active i p = false.
Proof. intros (c & Hc & Hcl). unfold active. rewrite Hc, Hcl. done. Qed.

(** A cleared timer never fires again, whatever happens on the page. *)
Lemma cleared_never_fires i events : forall r r',
  clearedAt i (intervals (page r)) ->
  exec events r = Some r' ->
  timerFires i ∉ events.
Proof.
  induction events as [|e events IH]; intros r r' Hcl Hexec.
  - apply not_elem_of_nil.
  - simpl in Hexec. destruct (step e r) as [r1|] eqn:Hstep; [|done].
    apply not_elem_of_cons. split.
    + intros <-. simpl in Hstep.
      rewrite (clearedAt_inactive _ _ Hcl) in Hstep. done.
    + apply (IH r1 r'); [|done].
      apply (exec_clearedAt i [e] r r1); [|done]. simpl. rewrite Hstep. done.
Qed.

(** *** The loop, as events of the page *)

Lemma inUnitInterval_true x : unitInterval x -> inUnitInterval x = true.
Proof.
  intros [H0 H1]. unfold inUnitInterval.
  apply andb_true_iff. split.
  - by apply Qle_bool_iff.
  - apply negb_true_iff. destruct (Qle_bool 1 x) eqn:E; [|done].
    apply Qle_bool_iff in E. exfalso. eapply Qlt_not_le; eauto.
Qed.

Lemma pollLoop_inactive i ticks p : active i p = false -> pollLoop i ticks p = p.
Proof. intros H. destruct ticks; simpl; [done|]. rewrite H. done. Qed.

Lemma pollLoop_app i ticks1 : forall ticks2 p,
  pollLoop i (ticks1 ++ ticks2) p = pollLoop i ticks2 (pollLoop i ticks1 p).
Proof.
  induction ticks1 as [|t ticks1 IH]; intros ticks2 p; simpl; [done|].
  destruct (active i p) eqn:Ha; [apply IH|].
  rewrite pollLoop_inactive; done.
Qed.

Lemma delete_snoc {A} (l : list A) x : delete (length l) (l ++ [x])%list = l.
Proof. induction l as [|a l IH]; simpl; [done|]. by rewrite IH. Qed.

(** Every state of a loop run in sequence is a state of the page. *)
Lemma pollLoop_exec i ticks : forall r,
  Forall (fun t => unitInterval (random t)) ticks ->
  exists events,
    exec events r =
    Some {| page := pollLoop i ticks (page r); suspended := suspended r;
            unhandledRejections := unhandledRejections r |}.
Proof.
  induction ticks as [|t ticks IH]; intros r Hticks.
  - exists []. destruct r. done.
  - apply Forall_cons in Hticks as [Ht Hticks]. simpl.
    destruct (active i (page r)) eqn:Ha.
    + set (r1 := {| page := tick i t (page r); suspended := suspended r;
                    unhandledRejections := unhandledRejections r |}).
      destruct (IH r1 Hticks) as [events Hevents].
      exists (timerFires i
              :: resultSettles (length (suspended r)) (response t) (random t) (now t)
              :: events).
      simpl. rewrite Ha. simpl.
      rewrite lookup_app_r, Nat.sub_diag by done. simpl.
      rewrite (inUnitInterval_true _ Ht).
      unfold run, resume, suspend. simpl. rewrite delete_snoc.
      destruct (intervalCallback_page i (response t) (random t) (now t) (page r))
        as [p' Hp'].
      rewrite Hp'. simpl. unfold r1, tick in Hevents. rewrite Hp' in Hevents.
      simpl in Hevents. unfold tick. rewrite Hp'. exact Hevents.
    + exists []. destruct r. done.
Qed.

Lemma pollLoop_reachable i ticks r :
  reachable r ->
  Forall (fun t => unitInterval (random t)) ticks ->
  reachable {| page := pollLoop i ticks (page r); suspended := suspended r;
               unhandledRejections := unhandledRejections r |}.
Proof.
  intros [events0 H0] Hticks.
  destruct (pollLoop_exec i ticks r Hticks) as [events Hevents].
  exists (events0 ++ events)%list. rewrite exec_app, H0. exact Hevents.
Qed.

(** *** The callback, statement by statement *)

Lemma intervalCallback_steps i fetch random now p p1 :
  classify i fetch random p = Normal tt p1 ->
  intervalCallback i fetch random now p = checkTimeout i now p1.
Proof.
  intros H. unfold intervalCallback. cbv [mbind Handler_bind]. rewrite H. done.
Qed.

Lemma lookup_onClosure (f : Interval -> Interval) i (l : list Interval) c :
  l !! i = Some c -> alter f i l !! i = Some (f c).
Proof. intros H. rewrite list_lookup_alter_eq, H. done. Qed.

(** What the [if] statement leaves, by the time of the tick. *)
Lemma checkTimeout_cases i now p c :
  intervals p !! i = Some c ->
  ((now - startTime c <= maxWait)%Z /\ checkTimeout i now p = Normal tt p)
  \/ ((now - startTime c > maxWait)%Z /\
      checkTimeout i now p =
      Normal tt {| state := withError timeoutMessage (state p);
                   intervals := alter markCleared i (intervals p) |}).
Proof.
  intros Hc. destruct (Z_le_gt_dec (now - startTime c) maxWait) as [Hin|Hlate].
  - left. eauto using checkTimeout_in_time.
  - right. eauto using checkTimeout_late.
Qed.

(** Rewrites a callback into the outcome of its [try] statement, given as
    [Hclassify], and splits on the timeout; [c1] is the closure the [try]
    statement leaves. *)
Ltac callback_by Hclassify c1 :=
  erewrite intervalCallback_steps by (apply Hclassify; auto);
  let Hin := fresh "Hin" in
  let Hlate := fresh "Hlate" in
  let Heq := fresh "Heq" in
  match goal with
  | |- context [checkTimeout ?i ?now ?p1] =>
      destruct (checkTimeout_cases i now p1 c1) as [[Hin Heq]|[Hlate Heq]];
      [ simpl; apply lookup_onClosure; eassumption
      | rewrite Heq; clear Heq
      | rewrite Heq; clear Heq ]
  end.

(** The estimate after an advance of at most [step], capped at [cap]. *)
Lemma advance_bounds (v x step cap : Q) :
  unitInterval x -> (0 <= step)%Q -> (v <= cap)%Q ->
  (v <= Qmin (v + x * step) cap)%Q
  /\ (Qmin (v + x * step) cap <= Qmin (v + step) cap)%Q.
Proof.
  intros [H0 H1] Hstep Hcap.
  assert (0 <= x * step)%Q by (apply Qmult_le_0_compat; done).
  assert (x * step <= 1 * step)%Q
    by (apply Qmult_le_compat_r; [apply Qlt_le_weak|]; done).
  split.
  - apply Q.min_glb; [lra | done].
  - apply Q.min_le_compat_r. lra.
Qed.

(** A tick that keeps polling, within the time allowed, leaves its timer
    as it was. *)
Lemma tick_keeps_polling i p c tk :
  intervals p !! i = Some c ->
  keepsPolling tk = true ->
  (now tk - startTime c <= maxWait)%Z ->
  exists c', intervals (tick i tk p) !! i = Some c'
    /\ startTime c' = startTime c /\ cleared c' = cleared c
    /\ error (state (tick i tk p)) = error (state p).
Proof.
  intros Hc Hk Hin. unfold tick, keepsPolling in *.
  destruct tk as [[res|m] x t]; simpl in *.
  - assert (ResultResponse.status res = queued \/
            ResultResponse.status res = processing) as Hs
      by (destruct (ResultResponse.status res); auto; done).
    callback_by (classify_in_progress i p c Hc res x)
                (withProgressValue (Qmin (progressValue c + x * 8) 95) c);
      [|simpl in *; lia].
    simpl. eexists. split; [by apply lookup_onClosure|]. done.
  - apply String.eqb_eq in Hk as ->.
    callback_by (classify_not_found i p c Hc x)
                (withProgressValue (Qmin (progressValue c + x * 5) 85) c);
      [|simpl in *; lia].
    simpl. eexists. split; [by apply lookup_onClosure|]. done.
Qed.

(** A tick later than the time allowed records the timeout and clears its
    timer, whatever its request settled to. *)
Lemma tick_late i p c fetch x t :
  intervals p !! i = Some c ->
  (t - startTime c > maxWait)%Z ->
  let outcome := intervalCallback i fetch x t p in
  uncaught outcome = None
  /\ error (state (finalState outcome)) = timeoutMessage
  /\ clearedAt i (intervals (finalState outcome)).
Proof.
  intros Hc Hlate outcome. unfold outcome.
  destruct fetch as [res|m].
  - destruct (ResultResponse.status res) eqn:Hs.
    + callback_by (classify_in_progress i p c Hc res x)
                  (withProgressValue (Qmin (progressValue c + x * 8) 95) c);
        [simpl in *; lia |].
      simpl. repeat split. eexists. split; [by do 2 apply lookup_onClosure|done].
    + callback_by (classify_in_progress i p c Hc res x)
                  (withProgressValue (Qmin (progressValue c + x * 8) 95) c);
        [simpl in *; lia |].
      simpl. repeat split. eexists. split; [by do 2 apply lookup_onClosure|done].
    + callback_by (classify_completed i res x p) (markCleared c);
        [simpl in *; lia |].
      simpl. repeat split. eexists. split; [by do 2 apply lookup_onClosure|done].
    + callback_by (classify_failed i res x p) (markCleared c);
        [simpl in *; lia |].
      simpl. repeat split. eexists. split; [by do 2 apply lookup_onClosure|done].
  - destruct (String.eqb_spec m "404") as [->|Hm].
    + callback_by (classify_not_found i p c Hc x)
                  (withProgressValue (Qmin (progressValue c + x * 5) 85) c);
        [simpl in *; lia |].
      simpl. repeat split. eexists. split; [by do 2 apply lookup_onClosure|done].
    + callback_by (classify_request_error i m x p) (markCleared c);
        [simpl in *; lia |].
      simpl. repeat split. eexists. split; [by do 2 apply lookup_onClosure|done].
Qed.

(** A loop whose ticks all keep polling within the time allowed is still
    running after them, with the start time it had. *)
Lemma pollLoop_keeps_polling i ticks : forall p c,
  intervals p !! i = Some c ->
  cleared c = false ->
  Forall (fun tk => keepsPolling tk = true /\ (now tk - startTime c <= maxWait)%Z)
         ticks ->
  exists c', intervals (pollLoop i ticks p) !! i = Some c'
    /\ startTime c' = startTime c /\ cleared c' = false
    /\ error (state (pollLoop i ticks p)) = error (state p).
Proof.
  induction ticks as [|tk ticks IH]; intros p c Hc Hcl Hticks; simpl.
  - eauto.
  - apply Forall_cons in Hticks as [[Hk Hin] Hticks].
    unfold active. rewrite Hc, Hcl. simpl.
    destruct (tick_keeps_polling i p c tk Hc Hk Hin) as (c1 & Hc1 & Hst & Hcl1 & He).
    destruct (IH (tick i tk p) c1 Hc1) as (c' & Hc' & Hst' & Hcl' & He').
    + congruence.
    + rewrite Hst. exact Hticks.
    + exists c'. repeat split; congruence.
Qed.

(** *** Evaluations and their loops *)

Lemma activeIntervals_snoc l c :
  cleared c = false ->
  length (filter (fun c => cleared c = false) (l ++ [c])) =
  S (length (filter (fun c => cleared c = false) l)).
Proof.
  intros Hc. rewrite filter_app, length_app.
  rewrite (filter_cons_True _ c []) by done. simpl. lia.
Qed.

(** *** Failures and where they are caught *)

(** [handleEvaluate] and the interval callback catch what their request
    throws. *)
Lemma handleEvaluate_catches fetch t p : uncaught (handleEvaluate fetch t p) = None.
Proof. handler_unfold. destruct fetch; done. Qed.

Lemma intervalCallback_catches i fetch x t p :
  uncaught (intervalCallback i fetch x t p) = None.
Proof.
  destruct (intervalCallback_page i fetch x t p) as [p' ->]. done.
Qed.

Lemma handleLogin_catches fetch p : uncaught (Login.handleLogin fetch p) = None.
Proof.
  cbv [Login.handleLogin Login.handleLogin_before Login.handleLogin_after
       tryFinally tryCatch await throw modify mbind mret Handler_bind
       Handler_ret Login.setError Login.setLoading Login.setItem Login.push
       uncaught].
  destruct fetch as [res|m]; simpl; [|done].
  destruct (_ || _); done.
Qed.

(** [handleUpload] has no [try]: with both files picked, what its request
    throws leaves the handler, after the error was emptied. *)
Lemma handleUpload_throws message p :
  is_Some (cv (state p)) -> is_Some (project (state p)) ->
  handleUpload (Rejected message) p =
  Thrown message {| state := withError "" (state p); intervals := intervals p |}.
Proof.
  intros [f Hf] [g Hg]. handler_unfold. rewrite Hf, Hg. done.
Qed.

(** *** The progress shown along a loop *)

Lemma tracks_weaken i p : tracks 85 i p -> tracks 95 i p.
Proof.
  intros (c & Hc & Hcap & Hp). exists c. repeat split; try done.
  eapply Qle_trans; [exact Hcap | done].
Qed.

(** A tick on the 404 error, from an estimate of at most 85. *)
Lemma tick_not_found_monotone i p tk :
  tracks 85 i p ->
  isNotFound tk = true -> unitInterval (random tk) ->
  (progress (state p) <= progress (state (tick i tk p)))%Q
  /\ tracks 85 i (tick i tk p).
Proof.
  intros (c & Hc & Hcap & Hp) Hnf Hx. unfold tick, isNotFound in *.
  destruct tk as [[res|m] x t]; simpl in *; [done|].
  apply String.eqb_eq in Hnf as ->.
  destruct (advance_bounds (progressValue c) x 5 85 Hx) as [Hlo _]; [done..|].
  callback_by (classify_not_found i p c Hc x)
              (withProgressValue (Qmin (progressValue c + x * 5) 85) c);
    unfold tracks; simpl; (split; [exact (Qle_trans _ _ _ Hp Hlo)|]);
    eexists; (split; [repeat apply lookup_onClosure; exact Hc|]); simpl;
    (split; [apply Q.le_min_r | apply Qle_refl]).
Qed.

(** A tick on anything else, from an estimate of at most 95. *)
Lemma tick_other_monotone i p tk :
  tracks 95 i p ->
  isNotFound tk = false -> unitInterval (random tk) ->
  (progress (state p) <= progress (state (tick i tk p)))%Q
  /\ (active i (tick i tk p) = true -> tracks 95 i (tick i tk p)).
Proof.
  intros (c & Hc & Hcap & Hp) Hnf Hx. unfold tick, isNotFound in *.
  assert (progress (state p) <= 100)%Q as Hfull
    by (eapply Qle_trans; [exact Hp|]; eapply Qle_trans; [exact Hcap | done]).
  assert (forall l : list Interval, clearedAt i l ->
            active i {| state := state p; intervals := l |} = true -> False)
    as Hoff.
  { intros l Hl Ha. apply clearedAt_inactive with (p := {| state := state p; intervals := l |}) in Hl.
    unfold active in *. simpl in *. congruence. }
  destruct tk as [[res|m] x' t]; simpl in *.
  - destruct (advance_bounds (progressValue c) x' 8 95 Hx) as [Hlo _]; [done..|].
    destruct (ResultResponse.status res) eqn:Hs.
    + callback_by (classify_in_progress i p c Hc res x')
                  (withProgressValue (Qmin (progressValue c + x' * 8) 95) c);
        unfold tracks; simpl; (split; [exact (Qle_trans _ _ _ Hp Hlo)|]); intros _;
        eexists; (split; [repeat apply lookup_onClosure; exact Hc|]); simpl;
        (split; [apply Q.le_min_r | apply Qle_refl]).
    + callback_by (classify_in_progress i p c Hc res x')
                  (withProgressValue (Qmin (progressValue c + x' * 8) 95) c);
        unfold tracks; simpl; (split; [exact (Qle_trans _ _ _ Hp Hlo)|]); intros _;
        eexists; (split; [repeat apply lookup_onClosure; exact Hc|]); simpl;
        (split; [apply Q.le_min_r | apply Qle_refl]).
    + callback_by (classify_completed i res x' p) (markCleared c);
        simpl; (split; [done|]); unfold active; simpl;
        rewrite ?list_lookup_alter_eq, Hc; done.
    + callback_by (classify_failed i res x' p) (markCleared c);
        simpl; (split; [apply Qle_refl|]); unfold active; simpl;
        rewrite ?list_lookup_alter_eq, Hc; done.
  - apply String.eqb_neq in Hnf.
    callback_by (classify_request_error i m x' p) (markCleared c);
      simpl; (split; [apply Qle_refl|]); unfold active; simpl;
      rewrite ?list_lookup_alter_eq, Hc; done.
Qed.

Lemma progressTrace_head i ticks p :
  exists rest, progressTrace i ticks p = progress (state p) :: rest.
Proof. destruct ticks; simpl; eauto. Qed.

Lemma Sorted_progressTrace_cons i tk ticks p :
  active i p = true ->
  (progress (state p) <= progress (state (tick i tk p)))%Q ->
  Sorted Qle (progressTrace i ticks (tick i tk p)) ->
  Sorted Qle (progressTrace i (tk :: ticks) p).
Proof.
  intros Ha Hle Hs. simpl. rewrite Ha. constructor; [done|].
  destruct (progressTrace_head i ticks (tick i tk p)) as [rest ->].
  by constructor.
Qed.

Lemma Sorted_progressTrace_inactive i ticks p :
  active i p = false -> Sorted Qle (progressTrace i ticks p).
Proof.
  intros Ha. destruct ticks; simpl; [|rewrite Ha]; repeat constructor.
Qed.

(** The advance, measured from the progress shown. *)
Lemma advance_from_shown (e shown x step cap : Q) :
  unitInterval x -> (0 <= step)%Q -> (e <= shown)%Q ->
  (Qmin (e + x * step) cap <= Qmin (shown + step) cap)%Q.
Proof.
  intros [H0 H1] Hstep Hle.
  assert (x * step <= 1 * step)%Q
    by (apply Qmult_le_compat_r; [apply Qlt_le_weak|]; done).
  apply Q.min_le_compat_r. lra.
Qed.

(** An advance from above the cap falls back to the cap. *)
Lemma advance_above_cap (e x step cap : Q) :
  unitInterval x -> (0 <= step)%Q -> (cap < e)%Q ->
  (Qmin (e + x * step) cap == cap)%Q /\ (Qmin (e + x * step) cap < e)%Q.
Proof.
  intros [H0 _] Hstep Hgt.
  assert (0 <= x * step)%Q by (apply Qmult_le_0_compat; done).
  assert (Qmin (e + x * step) cap == cap)%Q as Heq by (apply Q.min_r; lra).
  split; [exact Heq|]. rewrite Heq. done.
Qed.

(** A tick on the 404 error leaves an estimate of at most 85. *)
Lemma tick_not_found_estimate i p c tk :
  intervals p !! i = Some c ->
  isNotFound tk = true ->
  exists c', intervals (tick i tk p) !! i = Some c'
    /\ (progressValue c' <= 85)%Q.
Proof.
  intros Hc Hnf. unfold tick, isNotFound in *.
  destruct tk as [[res|m] x t]; simpl in *; [done|].
  apply String.eqb_eq in Hnf as ->.
  callback_by (classify_not_found i p c Hc x)
              (withProgressValue (Qmin (progressValue c + x * 5) 85) c);
    simpl; eexists; (split; [repeat apply lookup_onClosure; exact Hc|]);
    simpl; apply Q.le_min_r.
Qed.

Lemma retriesBelowCap_others i others : forall p,
  Forall (fun tk => isNotFound tk = false) others ->
  retriesBelowCap i others p.
Proof.
  induction others as [|tk others IH]; intros p Hall; simpl; [done|].
  apply Forall_cons in Hall as [Hnf Hall]. intros _. split; [|by apply IH].
  rewrite Hnf. done.
Qed.

Lemma retriesBelowCap_retries_first i retries : forall others p c,
  intervals p !! i = Some c ->
  (progressValue c <= 85)%Q ->
  Forall (fun tk => isNotFound tk = true) retries ->
  Forall (fun tk => isNotFound tk = false) others ->
  retriesBelowCap i (retries ++ others) p.
Proof.
  induction retries as [|tk retries IH]; intros others p c Hc Hcap Hretries Hothers.
  - simpl. by apply retriesBelowCap_others.
  - apply Forall_cons in Hretries as [Hnf Hretries].
    change ((tk :: retries) ++ others) with (tk :: (retries ++ others)).
    simpl. intros _. split.
    + intros _. unfold estimate. rewrite Hc. done.
    + destruct (tick_not_found_estimate i p c tk Hc Hnf) as (c' & Hc' & Hcap').
      by apply (IH others _ c').
Qed.

(** The progress shown never decreases along a run whose retried ticks
    find the estimate at most 85. *)
Lemma progressTrace_monotone i ticks : forall p,
  tracks 95 i p ->
  Forall (fun tk => unitInterval (random tk)) ticks ->
  retriesBelowCap i ticks p ->
  Sorted Qle (progressTrace i ticks p).
Proof.
  induction ticks as [|tk ticks IH]; intros p Hp Hall Hcap.
  - simpl. repeat constructor.
  - apply Forall_cons in Hall as [Hx Hall].
    destruct (active i p) eqn:Ha; [|by apply Sorted_progressTrace_inactive].
    simpl in Hcap. destruct (Hcap Ha) as [Hbelow Hrest].
    destruct (isNotFound tk) eqn:Hnf.
    + assert (tracks 85 i p) as Hp85.
      { destruct Hp as (c & Hc & _ & Hshown). exists c.
        split; [done|]. split; [|done].
        specialize (Hbelow eq_refl). unfold estimate in Hbelow.
        rewrite Hc in Hbelow. exact Hbelow. }
      destruct (tick_not_found_monotone i p tk Hp85 Hnf Hx) as [Hle Hnext].
      apply Sorted_progressTrace_cons; [done..|].
      apply IH; [by apply tracks_weaken | done | done].
    + destruct (tick_other_monotone i p tk Hp Hnf Hx) as [Hle Hnext].
      apply Sorted_progressTrace_cons; [done..|].
      destruct (active i (tick i tk p)) eqn:Ha'.
      * apply IH; auto.
      * by apply Sorted_progressTrace_inactive.
Qed.

(** *** The request helper *)

Lemma requestError_cases data res :
  (JS.truthy (JS.get data "error") = true ->
     Http.requestError data res = JS.ToString (JS.get data "error"))
  /\ (JS.truthy (JS.get data "error") = false -> Http.statusText res <> "" ->
     Http.requestError data res = Http.statusText res)
  /\ (JS.truthy (JS.get data "error") = false -> Http.statusText res = "" ->
     Http.requestError data res = "Request failed").
Proof.
  unfold Http.requestError, JS.or. repeat split.
  - intros He. rewrite He. simpl. rewrite He.
    destruct (JS.get data "error"); done.
  - intros He Hs. rewrite He. simpl.
    destruct (String.eqb_spec (Http.statusText res) ""); done.
  - intros He Hs. rewrite He, Hs. done.
Qed.


(** *** The concrete page *)


Lemma unitInterval_half : unitInterval (1 # 2).
Proof. split; [discriminate | reflexivity]. Qed.

Lemma startEvents_reach_pollingRuntime :
  exec startEvents initialRuntime = Some pollingRuntime.
Proof. reflexivity. Qed.

Lemma pollingRuntime_reachable : reachable pollingRuntime.
Proof. exists startEvents. reflexivity. Qed.

(** ** The claims *)

(** *** C1: ticks on the 404 error *)

(** C1 (amended). A tick whose request fails with the 404 error, with
    [Math.random()] returning [x] in [0, 1), throws nothing and leaves
    the status as it was. The estimate of its loop becomes the smaller
    of that estimate plus [5 x] and 85, and the progress shown becomes
    that new estimate: from an estimate [e] of at most 85 it lies
    between [e] and the smaller of [e + 5] and 85; from an estimate
    above 85 it is 85, below [e]. Measured from the progress shown
    before the tick, the new progress is not below it when that
    progress was at most [e] and [e] at most 85, and it is at most the
    smaller of that progress plus 5 and 85 when that progress was at
    least [e]: both hold when the page showed the estimate of the loop,
    as it does right after this tick. Within 90 s of the start of the
    loop the tick leaves the timer and the error as they were: polling
    goes on and no error is shown; later than that it clears the timer
    and records the timeout message. Over a run of one loop, its ticks
    settled one after the other, that starts with the progress shown at
    most the estimate of the loop and that estimate at most 95, the
    progress shown never decreases, whatever the ticks are classified
    as and whatever [Math.random()] returns in [0, 1), provided every
    tick on the 404 error finds the estimate at most 85; which is so
    when the run starts from an estimate of at most 85 and its ticks on
    the 404 error all come before its other ticks. *)
Theorem not_found_tick_retries i p c :
  intervals p !! i = Some c ->
  (forall x t,
     unitInterval x ->
     let outcome := intervalCallback i (Rejected "404") x t p in
     uncaught outcome = None
     /\ status (state (finalState outcome)) = status (state p)
     /\ (exists c',
           intervals (finalState outcome) !! i = Some c'
           /\ progressValue c' = Qmin (progressValue c + x * 5) 85
           /\ progress (state (finalState outcome)) = progressValue c'
           /\ ((progressValue c <= 85)%Q ->
               (progressValue c <= progressValue c')%Q
               /\ (progressValue c' <= Qmin (progressValue c + 5) 85)%Q)
           /\ ((85 < progressValue c)%Q ->
               (progressValue c' == 85)%Q
               /\ (progressValue c' < progressValue c)%Q)
           /\ ((progress (state p) <= progressValue c)%Q ->
               (progressValue c <= 85)%Q ->
               (progress (state p) <= progress (state (finalState outcome)))%Q)
           /\ ((progressValue c <= progress (state p))%Q ->
               (progress (state (finalState outcome))
                <= Qmin (progress (state p) + 5) 85)%Q))
     /\ ((t - startTime c <= maxWait)%Z ->
           active i (finalState outcome) = active i p
           /\ error (state (finalState outcome)) = error (state p))
     /\ ((t - startTime c > maxWait)%Z ->
           active i (finalState outcome) = false
           /\ error (state (finalState outcome)) = timeoutMessage))
  /\ (forall ticks,
        (progressValue c <= 95)%Q ->
        (progress (state p) <= progressValue c)%Q ->
        Forall (fun tk => unitInterval (random tk)) ticks ->
        retriesBelowCap i ticks p ->
        StronglySorted Qle (progressTrace i ticks p))
  /\ (forall retries others,
        (progressValue c <= 85)%Q ->
        Forall (fun tk => isNotFound tk = true) retries ->
        Forall (fun tk => isNotFound tk = false) others ->
        retriesBelowCap i (retries ++ others) p).
Proof.
  intros Hc. split; [|split].
  - intros x t Hx outcome. unfold outcome.
    assert (Hin85 : (progressValue c <= 85)%Q ->
              (progressValue c <= Qmin (progressValue c + x * 5) 85)%Q
              /\ (Qmin (progressValue c + x * 5) 85
                  <= Qmin (progressValue c + 5) 85)%Q)
      by (intros Hcap; apply advance_bounds; done).
    assert (Hover : (85 < progressValue c)%Q ->
              (Qmin (progressValue c + x * 5) 85 == 85)%Q
              /\ (Qmin (progressValue c + x * 5) 85 < progressValue c)%Q)
      by (intros Hgt; apply advance_above_cap; done).
    assert (Hlow : (progress (state p) <= progressValue c)%Q ->
              (progressValue c <= 85)%Q ->
              (progress (state p) <= Qmin (progressValue c + x * 5) 85)%Q).
    { intros Hshown Hcap. destruct (Hin85 Hcap) as [Hlo _].
      exact (Qle_trans _ _ _ Hshown Hlo). }
    assert (Hhigh : (progressValue c <= progress (state p))%Q ->
              (Qmin (progressValue c + x * 5) 85
               <= Qmin (progress (state p) + 5) 85)%Q)
      by (intros Hshown; apply advance_from_shown; done).
    callback_by (classify_not_found i p c Hc x)
                (withProgressValue (Qmin (progressValue c + x * 5) 85) c);
      simpl in *; unfold active; simpl; rewrite ?list_lookup_alter_eq, Hc; simpl;
      (split; [done|]); (split; [done|]);
      (split; [eexists; (split; [reflexivity|]); simpl;
               (split; [done|]); (split; [done|]); (split; [exact Hin85|]);
               (split; [exact Hover|]); (split; [exact Hlow | exact Hhigh])|]);
      split; intros; first [lia | done].
  - intros ticks Hcap Hshown Hticks Hbelow.
    apply Sorted_StronglySorted; [intros a b d; apply Qle_trans|].
    apply progressTrace_monotone; [|done..].
    exists c. done.
  - intros retries others Hcap Hretries Hothers.
    by apply (retriesBelowCap_retries_first i retries others p c).
Qed.

(** C1, refuted as stated. After twelve processing ticks the progress
    shown is 90 and the loop is running; a thirteenth tick, 32.5 s after
    the start, fails with the 404 error and the progress shown falls to
    85. A tick on a 404 error 90001 ms after the start stops the loop
    with the timeout message. And with two loops on the page, the first
    at 8, a tick of the second on the 404 error takes the progress
    shown from 8 down to 5/2: the second loop, over two 404 errors and a
    queued job, shows 8, 5/2, 5 and 9. *)
Lemma not_found_tick_lowers_progress :
  active 0 (pollLoop 0 twelveTicks pollingPage) = true
  /\ (progress (state (pollLoop 0 twelveTicks pollingPage)) == 90)%Q
  /\ progress (state (tick 0 (notFoundTick 13) (pollLoop 0 twelveTicks pollingPage)))
     = 85%Q
  /\ reachable {| page := pollLoop 0 twelveTicks pollingPage; suspended := [];
                  unhandledRejections := [] |}
  /\ active 0 (tick 0 (lateTick (Rejected "404")) pollingPage) = false
  /\ error (state (tick 0 (lateTick (Rejected "404")) pollingPage)) = timeoutMessage
  /\ exists r r',
       exec firstLoopAhead initialRuntime = Some r
       /\ (progress (state (page r)) == 8)%Q
       /\ exec [timerFires 1; resultSettles 0 (Rejected "404") (1 # 2) 7500] r
          = Some r'
       /\ (progress (state (page r')) == 5 # 2)%Q
       /\ active 1 (page r') = true
       /\ Forall2 Qeq (progressTrace 1 retriedRun (page r)) [8; 5 # 2; 5; 9]%Q.
Proof.
  split; [reflexivity|]. split; [reflexivity|]. split; [reflexivity|].
  split.
  { apply (pollLoop_reachable 0 twelveTicks pollingRuntime pollingRuntime_reachable).
    repeat constructor; vm_compute; discriminate. }
  split; [reflexivity|]. split; [reflexivity|].
  eexists. eexists. split; [vm_compute; reflexivity|].
  split; [reflexivity|]. split; [vm_compute; reflexivity|].
  split; [reflexivity|]. split; [reflexivity|].
  repeat constructor.
Qed.

Lemma not_found_tick_retries_witness :
  intervals pollingPage !! 0%nat = Some (loop "job-1" 0)
  /\ active 0 (tick 0 (firstTick (Rejected "404")) pollingPage) = true
  /\ error (state (tick 0 (firstTick (Rejected "404")) pollingPage)) = ""
  /\ (0 <= progress (state (tick 0 (firstTick (Rejected "404")) pollingPage)))%Q
  /\ (progress (state (tick 0 (firstTick (Rejected "404")) pollingPage)) <= 5)%Q
  /\ StronglySorted Qle (progressTrace 0 retriedRun pollingPage).
Proof.
  destruct (not_found_tick_retries 0 pollingPage (loop "job-1" 0) eq_refl)
    as (Htick & Hrun & Hfirst).
  split; [reflexivity|].
  destruct (Htick (1 # 2) 2500%Z unitInterval_half)
    as (_ & _ & (c' & _ & _ & Hshown & Hbounds & _) & Hin & _).
  destruct Hin as [Ha He]; [vm_compute; discriminate|].
  destruct Hbounds as [Hlo Hhi]; [vm_compute; discriminate|].
  split; [exact Ha|]. split; [exact He|].
  rewrite <- Hshown in Hlo, Hhi.
  split; [exact Hlo|]. split; [exact Hhi|].
  apply Hrun.
  - vm_compute. discriminate.
  - vm_compute. discriminate.
  - repeat constructor; vm_compute; discriminate.
  - apply Hfirst.
    + vm_compute. discriminate.
    + repeat constructor.
    + repeat constructor.
Defined.

(** *** C2: evaluations and polling loops *)

(** C2 (amended). Starting an evaluation cancels no polling loop. The
    part of [handleEvaluate] before its request leaves every timer as it
    is; when the request succeeds, [pollResult] registers one more timer
    after those there are, which stay as they were, so that the number of
    active loops grows by one; and the callback of one timer leaves every
    other timer as it is. *)
Theorem evaluation_adds_a_loop r k (res : EvaluateResponse.t) t :
  suspended r !! k = Some awaitingEvaluate ->
  intervals (finalState (handleEvaluate_before (page r))) = intervals (page r)
  /\ (exists r',
        step (evaluateSettles k (Resolved res) t) r = Some r'
        /\ intervals (page r') =
           (intervals (page r) ++
            [{| jobId := EvaluateResponse.id res; progressValue := 0;
                startTime := t; cleared := false |}])%list
        /\ activeIntervals (page r') = S (activeIntervals (page r))
        /\ unhandledRejections r' = unhandledRejections r)
  /\ (forall i j fetch x t' p,
        i <> j ->
        intervals (finalState (intervalCallback i fetch x t' p)) !! j =
        intervals p !! j).
Proof.
  intros Hk. split; [done|]. split.
  - eexists. simpl. rewrite Hk. split; [reflexivity|].
    unfold run. handler_unfold. simpl. repeat split.
    unfold activeIntervals. simpl. by apply activeIntervals_snoc.
  - intros i j fetch x t' p Hne. handler_unfold.
    destruct fetch as [res'|m].
    + destruct (ResultResponse.status res'); simpl;
        match goal with |- context [(?a >? ?b)%Z] => destruct (a >? b)%Z end;
        simpl; rewrite ?list_lookup_alter_ne by done; done.
    + destruct (String.eqb m "404"); simpl;
        match goal with |- context [(?a >? ?b)%Z] => destruct (a >? b)%Z end;
        simpl; rewrite ?list_lookup_alter_ne by done; done.
Qed.

(** C2, refuted as stated. A second evaluation started one second after
    the first leaves the page with two timers, both firing: the first
    loop was not cancelled. *)
Lemma two_evaluations_two_loops :
  exec twoEvaluations initialRuntime = Some twoLoops
  /\ activeIntervals (page twoLoops) = 2%nat
  /\ active 0 (page twoLoops) = true
  /\ active 1 (page twoLoops) = true
  /\ step (timerFires 0) twoLoops = Some (suspend (awaitingResult 0) twoLoops)
  /\ step (timerFires 1) twoLoops = Some (suspend (awaitingResult 1) twoLoops).
Proof. repeat split; reflexivity. Qed.

Lemma evaluation_adds_a_loop_witness :
  exec (startEvents ++ [clickEvaluate]) initialRuntime = Some resubmitting
  /\ suspended resubmitting !! 0%nat = Some awaitingEvaluate
  /\ exists r',
       step (evaluateSettles 0 (Resolved (submitted "job-2")) 1000) resubmitting
       = Some r'
       /\ activeIntervals (page r') = 2%nat.
Proof.
  split; [reflexivity|]. split; [reflexivity|].
  destruct (evaluation_adds_a_loop resubmitting 0 (submitted "job-2") 1000 eq_refl)
    as (_ & (r' & Hstep & _ & Hactive & _) & _).
  exists r'. split; [exact Hstep | exact Hactive].
Defined.

(** *** C3: failures of the upload *)

(** C3. With both files picked, an upload that the backend answers with
    an empty 502 leaves [handleUpload] as an exception: the page records
    an unhandled rejection and shows no error. *)
Lemma handleUpload_failure_escapes :
  handleUpload (Evaluation.fetchJSON (fun _ => uploaded) (Resolved badGateway))
               pickedPage
  = Thrown "Request failed" pickedPage
  /\ error (state pickedPage) = ""
  /\ exists r,
       exec [ selectCv (Some "cv.pdf"); selectProject (Some "report.pdf");
              clickUpload;
              uploadSettles 0
                (Evaluation.fetchJSON (fun _ => uploaded) (Resolved badGateway)) ]
            initialRuntime = Some r
       /\ unhandledRejections r = ["Request failed"]
       /\ error (state (page r)) = "".
Proof.
  split; [reflexivity|]. split; [reflexivity|].
  eexists. split; [vm_compute; reflexivity|]. split; reflexivity.
Qed.

(** *** C4: the timeout *)

(** C4. On a tick later than 90 s after the start time that [pollResult]
    recorded, whatever its request settled to, the callback throws
    nothing, records the timeout message and clears its timer, which
    never fires again. Hence a loop whose ticks keep polling (queued,
    processing or the 404 error) while within the 90 s ends, at its first
    tick past them, cleared and with the timeout message. *)
Theorem timeout_stops_polling i p c :
  intervals p !! i = Some c ->
  (forall fetch x t,
     (t - startTime c > maxWait)%Z ->
     let outcome := intervalCallback i fetch x t p in
     uncaught outcome = None
     /\ error (state (finalState outcome)) = timeoutMessage
     /\ active i (finalState outcome) = false
     /\ (forall r events r',
           page r = finalState outcome -> exec events r = Some r' ->
           timerFires i ∉ events))
  /\ (forall before late after,
        cleared c = false ->
        Forall (fun tk => keepsPolling tk = true
                          /\ (now tk - startTime c <= maxWait)%Z) before ->
        (now late - startTime c > maxWait)%Z ->
        let p' := pollLoop i (before ++ late :: after) p in
        error (state p') = timeoutMessage /\ active i p' = false).
Proof.
  intros Hc. split.
  - intros fetch x t Hlate outcome.
    destruct (tick_late i p c fetch x t Hc Hlate) as (H1 & H2 & H3).
    repeat split; try done.
    + by apply clearedAt_inactive.
    + intros r events r' Hr Hexec. eapply cleared_never_fires; [|exact Hexec].
      rewrite Hr. exact H3.
  - intros before late after Hcl Hbefore Hlate p'. unfold p'.
    rewrite pollLoop_app.
    destruct (pollLoop_keeps_polling i before p c Hc Hcl Hbefore)
      as (c1 & Hc1 & Hst & Hcl1 & _).
    assert (active i (pollLoop i before p) = true) as Ha
      by (unfold active; rewrite Hc1, Hcl1; done).
    simpl. rewrite Ha.
    destruct (tick_late i (pollLoop i before p) c1 (response late) (random late)
                (now late) Hc1) as (_ & H2 & H3); [rewrite Hst; done|].
    fold (tick i late (pollLoop i before p)) in H2, H3.
    pose proof (clearedAt_inactive _ _ H3) as Hoff.
    rewrite (pollLoop_inactive _ _ _ Hoff). done.
Qed.

Lemma timeout_stops_polling_witness :
  intervals pollingPage !! 0%nat = Some (loop "job-1" 0)
  /\ error (state (tick 0 (lateTick (answer processing absent None)) pollingPage))
     = timeoutMessage
  /\ active 0 (tick 0 (lateTick (answer processing absent None)) pollingPage) = false
  /\ error (state (pollLoop 0 (twelveTicks ++ lateTick (Rejected "404") :: retriedRun)
                            pollingPage)) = timeoutMessage
  /\ active 0 (pollLoop 0 (twelveTicks ++ lateTick (Rejected "404") :: retriedRun)
                        pollingPage) = false.
Proof.
  destruct (timeout_stops_polling 0 pollingPage (loop "job-1" 0) eq_refl)
    as [Htick Hrun].
  split; [reflexivity|].
  destruct (Htick (answer processing absent None) (1 # 2) 90001%Z)
    as (_ & He & Ha & _); [reflexivity|].
  split; [exact He|]. split; [exact Ha|].
  apply (Hrun twelveTicks (lateTick (Rejected "404")) retriedRun).
  - reflexivity.
  - repeat constructor; vm_compute; discriminate.
  - reflexivity.
Defined.

(** *** C5: completed jobs *)

(** C5. A tick whose response has status completed attaches the result of
    the response as it came (its fields when it carries one), sets the
    progress to exactly 100 and the status to completed, and clears its
    timer: the timer is inactive afterwards and never fires again,
    whatever events follow on the page. *)
Theorem completed_tick_attaches_result_and_stops
    i p c (res : ResultResponse.t) x t :
  intervals p !! i = Some c ->
  ResultResponse.status res = completed ->
  let outcome := intervalCallback i (Resolved res) x t p in
  uncaught outcome = None
  /\ status (state (finalState outcome)) = job completed
  /\ result (state (finalState outcome)) = nonNull (ResultResponse.result res)
  /\ (forall payload, ResultResponse.result res = present payload ->
        result (state (finalState outcome)) = resultOf payload)
  /\ progress (state (finalState outcome)) = 100%Q
  /\ active i (finalState outcome) = false
  /\ (forall r events r',
        page r = finalState outcome -> exec events r = Some r' ->
        timerFires i ∉ events).
Proof.
  intros Hc Hs outcome.
  assert (Hcore :
    uncaught outcome = None
    /\ status (state (finalState outcome)) = job completed
    /\ result (state (finalState outcome)) = nonNull (ResultResponse.result res)
    /\ progress (state (finalState outcome)) = 100%Q
    /\ clearedAt i (intervals (finalState outcome))).
  { unfold outcome.
    callback_by (classify_completed i res x p) (markCleared c);
      simpl; repeat split; try done.
    - exists (markCleared c). split; [|done]. by apply lookup_onClosure.
    - exists (markCleared (markCleared c)). split; [|done].
      by do 2 apply lookup_onClosure. }
  destruct Hcore as (H1 & H2 & H3 & H4 & H5).
  repeat split; try done.
  - intros payload Hp. rewrite H3, Hp. done.
  - by apply clearedAt_inactive.
  - intros r events r' Hr Hexec. eapply cleared_never_fires; [|exact Hexec].
    rewrite Hr. exact H5.
Qed.

Lemma completed_tick_witness :
  intervals pollingPage !! 0%nat = Some (loop "job-1" 0)
  /\ ResultResponse.status
       {| ResultResponse.id := "job-1"; ResultResponse.status := completed;
          ResultResponse.result := present scores; ResultResponse.error := None |}
     = completed
  /\ result (state (tick 0 (firstTick (answer completed (present scores) None))
                         pollingPage)) = resultOf scores
  /\ progress (state (tick 0 (firstTick (answer completed (present scores) None))
                           pollingPage)) = 100%Q
  /\ active 0 (tick 0 (firstTick (answer completed (present scores) None))
                    pollingPage) = false.
Proof.
  split; [reflexivity|]. split; [reflexivity|].
  destruct (completed_tick_attaches_result_and_stops 0 pollingPage
              (loop "job-1" 0)
              {| ResultResponse.id := "job-1"; ResultResponse.status := completed;
                 ResultResponse.result := present scores;
                 ResultResponse.error := None |}
              (1 # 2) 2500%Z eq_refl eq_refl)
    as (_ & _ & _ & Hr & Hp & Ha & _).
  split; [exact (Hr scores eq_refl)|]. split; [exact Hp | exact Ha].
Defined.

(** The source does not serialise the callbacks of a timer: when the
    timer fired twice before the first response came, the second
    response still settles after the completed one, and sets the status
    and the progress again; the cleared timer sends no request any
    more. *)
Lemma callback_settles_after_completion :
  exists r,
    exec overlappingTicks initialRuntime = Some r
    /\ status (state (page r)) = job processing
    /\ result (state (page r)) = resultOf scores
    /\ (progress (state (page r)) == 4)%Q
    /\ active 0 (page r) = false
    /\ suspended r = []
    /\ step (timerFires 0) r = None.
Proof.
  eexists. split; [vm_compute; reflexivity|]. repeat split; reflexivity.
Qed.

(** *** C6: failed jobs *)

(** C6 (amended). A tick whose response has status failed throws nothing,
    sets the status to failed and clears its timer. Within 90 s of the
    start of the loop the error it records is the message of the response
    when there is one and it is not empty, and "Evaluation failed"
    otherwise; later than that the error is the timeout message. *)
Theorem failed_tick_records_error_and_stops
    i p c (res : ResultResponse.t) x t :
  intervals p !! i = Some c ->
  ResultResponse.status res = failed ->
  let outcome := intervalCallback i (Resolved res) x t p in
  uncaught outcome = None
  /\ status (state (finalState outcome)) = job failed
  /\ active i (finalState outcome) = false
  /\ ((t - startTime c <= maxWait)%Z ->
        (forall message,
           ResultResponse.error res = Some message -> message <> "" ->
           error (state (finalState outcome)) = message)
        /\ (ResultResponse.error res = None \/ ResultResponse.error res = Some "" ->
           error (state (finalState outcome)) = "Evaluation failed"))
  /\ ((t - startTime c > maxWait)%Z ->
        error (state (finalState outcome)) = timeoutMessage).
Proof.
  intros Hc Hs outcome. unfold outcome.
  callback_by (classify_failed i res x p) (markCleared c);
    simpl in *; unfold active; simpl;
    rewrite ?list_lookup_alter_eq, Hc; simpl;
    repeat split; try done; try (intros; lia).
  - intros message Hm Hne. rewrite Hm. simpl.
    destruct (String.eqb_spec message ""); done.
  - intros [-> | ->]; done.
Qed.

(** C6, refuted as stated. A failed response with the message "bad input"
    that arrives 90001 ms after the start leaves the timeout message, not
    "bad input"; and a failed response whose message is the empty string
    leaves "Evaluation failed". *)
Lemma failed_tick_message_replaced :
  error (state (tick 0 (lateTick (answer failed absent (Some "bad input")))
                     pollingPage)) = timeoutMessage
  /\ error (state (tick 0 (firstTick (answer failed absent (Some "")))
                        pollingPage)) = "Evaluation failed".
Proof. split; reflexivity. Qed.

Lemma failed_tick_witness :
  intervals pollingPage !! 0%nat = Some (loop "job-1" 0)
  /\ error (state (tick 0 (firstTick (answer failed absent (Some "bad input")))
                        pollingPage)) = "bad input"
  /\ status (state (tick 0 (firstTick (answer failed absent (Some "bad input")))
                         pollingPage)) = job failed
  /\ active 0 (tick 0 (firstTick (answer failed absent (Some "bad input")))
                    pollingPage) = false.
Proof.
  split; [reflexivity|].
  destruct (failed_tick_records_error_and_stops 0 pollingPage (loop "job-1" 0)
              {| ResultResponse.id := "job-1"; ResultResponse.status := failed;
                 ResultResponse.result := absent;
                 ResultResponse.error := Some "bad input" |}
              (1 # 2) 2500%Z eq_refl eq_refl)
    as (_ & Hs & Ha & Hin & _).
  destruct Hin as [Hm _]; [vm_compute; discriminate|].
  split; [apply (Hm "bad input" eq_refl); discriminate|].
  split; [exact Hs | exact Ha].
Defined.

(** *** C7: queued and processing jobs *)

(** C7 (amended). A tick whose response has status queued or processing,
    with [Math.random()] returning [x] in [0, 1), throws nothing and
    sets the status to that of the response. The estimate of its loop,
    [e] before the tick and at most 95 on every page the events lead to,
    becomes the smaller of [e + 8 x] and 95, and the progress shown
    becomes that new estimate: it lies between [e] and the smaller of
    [e + 8] and 95. Measured from the progress shown before the tick,
    the new progress is not below it when that progress was at most
    [e], and it is at most the smaller of that progress plus 8 and 95
    when that progress was at least [e]: both hold when the page showed
    the estimate of the loop, as it does right after this tick. Within
    90 s of the start of the loop the tick leaves the timer and the
    error as they were, so polling continues; later than that it clears
    the timer and records the timeout message. *)
Theorem in_progress_tick_advances r i c (res : ResultResponse.t) x t :
  reachable r ->
  intervals (page r) !! i = Some c ->
  ResultResponse.status res = queued \/ ResultResponse.status res = processing ->
  unitInterval x ->
  let outcome := intervalCallback i (Resolved res) x t (page r) in
  uncaught outcome = None
  /\ status (state (finalState outcome)) = job (ResultResponse.status res)
  /\ (exists c',
        intervals (finalState outcome) !! i = Some c'
        /\ progressValue c' = Qmin (progressValue c + x * 8) 95
        /\ progress (state (finalState outcome)) = progressValue c'
        /\ (progressValue c <= progressValue c')%Q
        /\ (progressValue c' <= Qmin (progressValue c + 8) 95)%Q
        /\ ((progress (state (page r)) <= progressValue c)%Q ->
            (progress (state (page r)) <= progress (state (finalState outcome)))%Q)
        /\ ((progressValue c <= progress (state (page r)))%Q ->
            (progress (state (finalState outcome))
             <= Qmin (progress (state (page r)) + 8) 95)%Q))
  /\ ((t - startTime c <= maxWait)%Z ->
        active i (finalState outcome) = active i (page r)
        /\ error (state (finalState outcome)) = error (state (page r)))
  /\ ((t - startTime c > maxWait)%Z ->
        active i (finalState outcome) = false
        /\ error (state (finalState outcome)) = timeoutMessage).
Proof.
  intros Hr Hc Hs Hx outcome. unfold outcome.
  pose proof (reachable_progressValue r i c Hr Hc) as Hb.
  destruct (advance_bounds (progressValue c) x 8 95 Hx) as [Hlo Hhi]; [done..|].
  assert (Hlow : (progress (state (page r)) <= progressValue c)%Q ->
            (progress (state (page r)) <= Qmin (progressValue c + x * 8) 95)%Q)
    by (intros Hshown; exact (Qle_trans _ _ _ Hshown Hlo)).
  assert (Hhigh : (progressValue c <= progress (state (page r)))%Q ->
            (Qmin (progressValue c + x * 8) 95
             <= Qmin (progress (state (page r)) + 8) 95)%Q)
    by (intros Hshown; apply advance_from_shown; done).
  callback_by (classify_in_progress i (page r) c Hc res x)
              (withProgressValue (Qmin (progressValue c + x * 8) 95) c);
    simpl in *; unfold active; simpl;
    rewrite ?list_lookup_alter_eq, Hc; simpl;
    (split; [done|]); (split; [done|]);
    (split; [eexists; (split; [reflexivity|]); simpl;
             (split; [done|]); (split; [done|]); (split; [exact Hlo|]);
             (split; [exact Hhi|]); (split; [exact Hlow | exact Hhigh])|]);
    split; intros; first [lia | done].
Qed.

(** C7, refuted as stated. A processing response that arrives 90001 ms
    after the start ends the loop: its timer is cleared and the timeout
    message is recorded. With two loops on the page, the first at 8, a
    processing tick of the second, in time, takes the progress shown
    from 8 down to 2. And after the button was clicked again on a loop
    at 8, the progress shown being back at 0, a processing tick of that
    loop takes it from 0 to 12, more than 8 higher. *)
Lemma in_progress_tick_can_stop :
  active 0 pollingPage = true
  /\ active 0 (tick 0 (lateTick (answer processing absent None)) pollingPage) = false
  /\ error (state (tick 0 (lateTick (answer processing absent None)) pollingPage))
     = timeoutMessage
  /\ (exists r r',
        exec firstLoopAhead initialRuntime = Some r
        /\ (progress (state (page r)) == 8)%Q
        /\ exec [timerFires 1;
                 resultSettles 0 (answer processing absent None) (1 # 4) 6000] r
           = Some r'
        /\ (progress (state (page r')) == 2)%Q
        /\ active 1 (page r') = true)
  /\ (exists r r',
        exec restarted initialRuntime = Some r
        /\ (progress (state (page r)) == 0)%Q
        /\ (estimate 0 (page r) == 8)%Q
        /\ exec [timerFires 0;
                 resultSettles 1 (answer processing absent None) (1 # 2) 7500] r
           = Some r'
        /\ (progress (state (page r')) == 12)%Q
        /\ active 0 (page r') = true).
Proof.
  split; [reflexivity|]. split; [reflexivity|]. split; [reflexivity|].
  split.
  - eexists. eexists. split; [vm_compute; reflexivity|].
    split; [reflexivity|]. split; [vm_compute; reflexivity|].
    split; reflexivity.
  - eexists. eexists. split; [vm_compute; reflexivity|].
    split; [reflexivity|]. split; [reflexivity|].
    split; [vm_compute; reflexivity|].
    split; reflexivity.
Qed.

Lemma in_progress_tick_witness :
  reachable pollingRuntime
  /\ intervals (page pollingRuntime) !! 0%nat = Some (loop "job-1" 0)
  /\ unitInterval (1 # 2)
  /\ active 0 (tick 0 (firstTick (answer processing absent None)) pollingPage) = true
  /\ (progress (state (tick 0 (firstTick (answer processing absent None))
                            pollingPage)) == 4)%Q
  /\ (progress (state pollingPage)
      <= progress (state (tick 0 (firstTick (answer processing absent None))
                               pollingPage)))%Q
  /\ (progress (state (tick 0 (firstTick (answer processing absent None))
                            pollingPage))
      <= Qmin (progress (state pollingPage) + 8) 95)%Q.
Proof.
  split; [exact pollingRuntime_reachable|]. split; [reflexivity|].
  split; [exact unitInterval_half|].
  destruct (in_progress_tick_advances pollingRuntime 0 (loop "job-1" 0)
              {| ResultResponse.id := "job-1"; ResultResponse.status := processing;
                 ResultResponse.result := absent; ResultResponse.error := None |}
              (1 # 2) 2500%Z pollingRuntime_reachable eq_refl
              (or_intror eq_refl) unitInterval_half)
    as (_ & _ & (c' & _ & _ & _ & _ & _ & Hlow & Hhigh) & Hin & _).
  destruct Hin as [Ha _]; [vm_compute; discriminate|].
  split; [exact Ha|]. split; [reflexivity|].
  split; [apply Hlow | apply Hhigh]; vm_compute; discriminate.
Defined.

(** *** C8: the request helper *)



(** *** C9: the request helper of the login page *)

(** C9 (amended). On a response of status 404 the [fetchJSON] of the
    login page reads the body and fails as on any other unsuccessful
    status: with the error whose message is the [error] of the parsed
    body when the body is JSON text and that value is truthy, and
    otherwise (also for an empty or unparsable body) the status text
    when that is not empty, else "Request failed". The copy of the
    evaluation page fails on it with the error of message 404; the two
    copies settle alike on a 404 exactly when the message of the login
    copy is itself 404, and on every other response they settle alike.
    [handleLogin] does not retry on it: it shows the message (or "Login
    failed" when it is empty), stops loading, stores nothing and stays
    on its route. *)
Theorem login_fetchJSON_has_no_404_case
    {T} (cast : JS.Value -> T) (asLogin : JS.Value -> Login.LoginResponse)
    (res : Http.Response) (p : Login.Page) :
  Http.status res = 404%Z ->
  let outcome := Login.handleLogin (Login.fetchJSON asLogin (Resolved res)) p in
  (exists message,
     Login.fetchJSON cast (Resolved res) = Rejected message
     /\ (forall data,
           Http.body res = Http.Json data ->
           JS.truthy (JS.get data "error") = true ->
           message = JS.ToString (JS.get data "error"))
     /\ (Http.body res = Http.Empty \/ Http.body res = Http.Malformed
         \/ (exists data, Http.body res = Http.Json data
                          /\ JS.truthy (JS.get data "error") = false) ->
         message = if String.eqb (Http.statusText res) ""
                   then "Request failed" else Http.statusText res)
     /\ (Login.fetchJSON cast (Resolved res)
         = Evaluation.fetchJSON cast (Resolved res) <-> message = "404")
     /\ Login.error (finalState outcome)
        = if String.eqb message "" then "Login failed" else message)
  /\ Evaluation.fetchJSON cast (Resolved res) = Rejected "404"
  /\ (forall other : Http.Response,
        Http.status other <> 404%Z ->
        Login.fetchJSON cast (Resolved other) =
        Evaluation.fetchJSON cast (Resolved other))
  /\ uncaught outcome = None
  /\ Login.loading (finalState outcome) = false
  /\ Login.localStorage (finalState outcome) = Login.localStorage p
  /\ Login.route (finalState outcome) = Login.route p.
Proof.
  intros Hs outcome.
  set (message := Http.requestError (Http.parse (Http.body res)) res).
  assert (Http.ok res = false) as Hok by (unfold Http.ok; rewrite Hs; done).
  assert (forall U (f : JS.Value -> U),
            Login.fetchJSON f (Resolved res) = Rejected message) as Hlogin.
  { intros U f. unfold Login.fetchJSON. simpl. rewrite Hok. done. }
  assert (Evaluation.fetchJSON cast (Resolved res) = Rejected "404") as Heval.
  { unfold Evaluation.fetchJSON. simpl. rewrite Hs. done. }
  destruct (requestError_cases (Http.parse (Http.body res)) res)
    as (Hbody & Htext & Hnone).
  fold message in Hbody, Htext, Hnone.
  split.
  { exists message. split; [apply Hlogin|]. split.
    { intros data Hd Ht. rewrite Hd in Hbody. simpl in Hbody. auto. }
    split.
    { intros Hno.
      assert (JS.truthy (JS.get (Http.parse (Http.body res)) "error") = false) as Hf.
      { destruct Hno as [-> | [-> | (data & -> & Hf)]]; done. }
      destruct (String.eqb_spec (Http.statusText res) "") as [He|He]; auto. }
    split.
    { rewrite Hlogin, Heval. split; [by intros [= ->] | by intros ->]. }
    unfold outcome. rewrite Hlogin. done. }
  split; [exact Heval|]. split.
  { intros other Hne'. unfold Login.fetchJSON, Evaluation.fetchJSON. simpl.
    destruct (Z.eqb_spec (Http.status other) 404); done. }
  unfold outcome. rewrite Hlogin. done.
Qed.

(** C9, refuted as stated. A response of status 404 whose body carries
    the error message 404 makes the [fetchJSON] of the login page fail
    exactly as the copy of the evaluation page does on a 404, with the
    error of message 404; and a 404 without status text or body fails
    with "Request failed", which is neither a message of the body nor
    the status text. *)
Lemma login_fetchJSON_fails_as_404 :
  Http.status notFoundNamed404 = 404%Z
  /\ Login.fetchJSON (fun data => data) (Resolved notFoundNamed404)
     = Rejected "404"
  /\ Login.fetchJSON (fun data => data) (Resolved notFoundNamed404)
     = Evaluation.fetchJSON (fun data => data) (Resolved notFoundNamed404)
  /\ Http.status bareNotFound = 404%Z
  /\ Http.statusText bareNotFound = ""
  /\ Login.fetchJSON (fun data => data) (Resolved bareNotFound)
     = Rejected "Request failed".
Proof. repeat split; reflexivity. Qed.

Lemma login_fetchJSON_witness :
  Http.status unknownUser = 404%Z
  /\ Login.fetchJSON (fun data => data) (Resolved unknownUser)
     = Rejected "Unknown user"
  /\ Evaluation.fetchJSON (fun data => data) (Resolved unknownUser) = Rejected "404"
  /\ Login.error (finalState
        (Login.handleLogin
           (Login.fetchJSON
              (fun _ => {| Login.access_token := ""; Login.token_type := None;
                           Login.tenant_id := "" |})
              (Resolved unknownUser)) loginPage)) = "Unknown user".
Proof.
  split; [reflexivity|].
  destruct (login_fetchJSON_has_no_404_case (fun data => data)
              (fun _ => {| Login.access_token := ""; Login.token_type := None;
                           Login.tenant_id := "" |})
              unknownUser loginPage eq_refl)
    as ((message & Hlogin & Hbody & _ & _ & Herr) & Heval & _).
  pose proof (Hbody (JS.Obj {[ "error" := JS.Str "Unknown user" ]})
                eq_refl eq_refl) as Hm.
  vm_compute in Hm.
  rewrite Hm in Hlogin, Herr.
  split; [exact Hlogin|]. split; [exact Heval | exact Herr].
Defined.

(** *** C10: completed jobs without a result *)

(** C10 (amended). A tick whose response has status completed and carries
    no result throws nothing: it sets the status to completed and the
    progress to 100, attaches [undefined] as the result and clears its
    timer. It leaves the error as it was when it comes within 90 s of the
    start of the loop; later than that the timeout message is recorded as
    well. *)
Theorem completed_without_result_is_success
    i p c (res : ResultResponse.t) x t :
  intervals p !! i = Some c ->
  ResultResponse.status res = completed ->
  ResultResponse.result res = absent ->
  let outcome := intervalCallback i (Resolved res) x t p in
  uncaught outcome = None
  /\ status (state (finalState outcome)) = job completed
  /\ progress (state (finalState outcome)) = 100%Q
  /\ result (state (finalState outcome)) = resultUndefined
  /\ active i (finalState outcome) = false
  /\ ((t - startTime c <= maxWait)%Z ->
        error (state (finalState outcome)) = error (state p))
  /\ ((t - startTime c > maxWait)%Z ->
        error (state (finalState outcome)) = timeoutMessage).
Proof.
  intros Hc Hs Hr outcome. unfold outcome.
  callback_by (classify_completed i res x p) (markCleared c);
    simpl in *; rewrite Hr; unfold active; simpl;
    rewrite ?list_lookup_alter_eq, Hc; simpl;
    repeat split; try done; intros; lia.
Qed.

(** C10, refuted as stated. A completed response without a result that
    arrives 90001 ms after the start leaves the timeout message on the
    page, which showed no error before. *)
Lemma completed_without_result_late :
  error (state pollingPage) = ""
  /\ status (state (tick 0 (lateTick (answer completed absent None)) pollingPage))
     = job completed
  /\ error (state (tick 0 (lateTick (answer completed absent None)) pollingPage))
     = timeoutMessage.
Proof. repeat split; reflexivity. Qed.

Lemma completed_without_result_witness :
  intervals pollingPage !! 0%nat = Some (loop "job-1" 0)
  /\ result (state (tick 0 (firstTick (answer completed absent None)) pollingPage))
     = resultUndefined
  /\ progress (state (tick 0 (firstTick (answer completed absent None)) pollingPage))
     = 100%Q
  /\ error (state (tick 0 (firstTick (answer completed absent None)) pollingPage))
     = "".
Proof.
  split; [reflexivity|].
  destruct (completed_without_result_is_success 0 pollingPage (loop "job-1" 0)
              {| ResultResponse.id := "job-1"; ResultResponse.status := completed;
                 ResultResponse.result := absent; ResultResponse.error := None |}
              (1 # 2) 2500%Z eq_refl eq_refl eq_refl)
    as (_ & _ & Hp & Hr & _ & Hin & _).
  split; [exact Hr|]. split; [exact Hp|].
  apply Hin. vm_compute. discriminate.
Defined.


(** * Further properties *)

(** ** Login and session *)

(** Unfolds the handlers of the login page and of the session. *)
Ltac session_unfold :=
  cbv [Login.handleLogin Login.handleLogin_before Login.handleLogin_after
       Login.setError Login.setLoading Login.setItem Login.push
       Session.useEffect Session.handleLogout Session.getItem
       Session.removeItem Session.push Session.setToken Session.setTenantId
       Session.orEmpty Session.opened
       tryFinally tryCatch await throw modify gets mbind mret
       Handler_bind Handler_ret finalState uncaught].

Lemma eqb_empty_false (s : string) : s <> "" -> String.eqb s "" = false.
Proof. intros H. by apply String.eqb_neq. Qed.

(** A login that the backend answers with a token and a tenant stores
    both under their keys, leaves every other key of the storage alone,
    shows no error, stops loading and goes to the evaluation page; the
    evaluation page that mounts next reads back that token and that
    tenant, and stays. *)
Theorem login_opens_session (res : Login.LoginResponse) (p : Login.Page) :
  Login.access_token res <> "" ->
  Login.tenant_id res <> "" ->
  let outcome := Login.handleLogin (Resolved res) p in
  let session := finalState (Session.useEffect (Session.opened (finalState outcome))) in
  uncaught outcome = None
  /\ Login.error (finalState outcome) = ""
  /\ Login.loading (finalState outcome) = false
  /\ Login.route (finalState outcome) = "/evaluation"
  /\ Login.localStorage (finalState outcome) !! "authToken"
     = Some (Login.access_token res)
  /\ Login.localStorage (finalState outcome) !! "tenantId"
     = Some (Login.tenant_id res)
  /\ (forall key, key <> "authToken" -> key <> "tenantId" ->
        Login.localStorage (finalState outcome) !! key
        = Login.localStorage p !! key)
  /\ Session.token session = Login.access_token res
  /\ Session.tenantId session = Login.tenant_id res
  /\ Session.route session = "/evaluation".
Proof.
  intros Htoken Htenant outcome session. unfold session, outcome.
  session_unfold. simpl.
  rewrite (eqb_empty_false _ Htoken), (eqb_empty_false _ Htenant). simpl.
  set (stored := <["tenantId" := Login.tenant_id res]>
                   (<["authToken" := Login.access_token res]>
                      (Login.localStorage p))).
  assert (stored !! "authToken" = Some (Login.access_token res)) as Hread1
    by (unfold stored; by simplify_map_eq).
  assert (stored !! "tenantId" = Some (Login.tenant_id res)) as Hread2
    by (unfold stored; by simplify_map_eq).
  rewrite Hread1, Hread2. simpl.
  rewrite (eqb_empty_false _ Htoken), (eqb_empty_false _ Htenant). simpl.
  repeat split; try done.
  intros key H1 H2. unfold stored. by simplify_map_eq.
Qed.

Lemma login_opens_session_witness :
  Login.access_token
    {| Login.access_token := "tok-1"; Login.token_type := Some "bearer";
       Login.tenant_id := "acme" |} <> ""
  /\ Session.token
       (finalState (Session.useEffect (Session.opened (finalState
          (Login.handleLogin
             (Resolved {| Login.access_token := "tok-1";
                          Login.token_type := Some "bearer";
                          Login.tenant_id := "acme" |}) loginPage)))))
     = "tok-1".
Proof.
  split; [discriminate|].
  destruct (login_opens_session
              {| Login.access_token := "tok-1"; Login.token_type := Some "bearer";
                 Login.tenant_id := "acme" |} loginPage)
    as (_ & _ & _ & _ & _ & _ & _ & Htoken & _); [discriminate..|].
  exact Htoken.
Defined.

(** A login that fails, because the request is rejected or because the
    response lacks the token or the tenant, stores nothing and does not
    leave the login page; it stops loading and shows a message that is
    never empty: the message of the rejection, "Login failed" when that
    one is empty, and "Invalid login response" for a response that lacks
    a field. *)
Theorem failed_login_stores_nothing
    (fetch : Outcome Login.LoginResponse) (p : Login.Page) :
  (forall res, fetch = Resolved res ->
     Login.access_token res = "" \/ Login.tenant_id res = "") ->
  let outcome := Login.handleLogin fetch p in
  uncaught outcome = None
  /\ Login.localStorage (finalState outcome) = Login.localStorage p
  /\ Login.route (finalState outcome) = Login.route p
  /\ Login.loading (finalState outcome) = false
  /\ Login.error (finalState outcome) <> ""
  /\ (forall res, fetch = Resolved res ->
        Login.error (finalState outcome) = "Invalid login response")
  /\ (forall message, fetch = Rejected message ->
        Login.error (finalState outcome)
        = if String.eqb message "" then "Login failed" else message).
Proof.
  intros Hlacks outcome. unfold outcome. session_unfold.
  destruct fetch as [res|message]; simpl.
  - assert (String.eqb (Login.access_token res) ""
            || String.eqb (Login.tenant_id res) "" = true) as ->.
    { destruct (Hlacks res eq_refl) as [-> | ->]; simpl; [done|].
      by rewrite orb_true_r. }
    simpl. repeat split; try done.
  - repeat split; try done.
    + destruct (String.eqb_spec message ""); simpl; done.
    + by intros m [= ->].
Qed.

Lemma failed_login_witness :
  Login.error (finalState (Login.handleLogin
     (Resolved {| Login.access_token := "tok-1"; Login.token_type := None;
                  Login.tenant_id := "" |}) loginPage))
  = "Invalid login response"
  /\ Login.localStorage (finalState (Login.handleLogin
        (Resolved {| Login.access_token := "tok-1"; Login.token_type := None;
                     Login.tenant_id := "" |}) loginPage))
     = ∅.
Proof.
  destruct (failed_login_stores_nothing
              (Resolved {| Login.access_token := "tok-1"; Login.token_type := None;
                           Login.tenant_id := "" |}) loginPage)
    as (_ & Hstore & _ & _ & _ & Herr & _).
  { intros res [= <-]. right. reflexivity. }
  split; [exact (Herr _ eq_refl) | exact Hstore].
Defined.

Lemma useEffect_without_token (b : Session.Browser) :
  Session.localStorage b !! "authToken" = None ->
  Session.localStorage b !! "tenantId" = None ->
  Session.token (finalState (Session.useEffect b)) = ""
  /\ Session.tenantId (finalState (Session.useEffect b)) = ""
  /\ Session.route (finalState (Session.useEffect b)) = "/".
Proof. intros Ht Htid. session_unfold. rewrite Ht, Htid. done. Qed.

(** The effect of the evaluation page goes to the login page exactly when
    the stored token or the stored tenant is missing or empty; it keeps
    what it read as the token and the tenant of the component either way,
    and writes nothing to the storage. *)
Theorem useEffect_gates_on_session (b : Session.Browser) :
  let t := default "" (Session.localStorage b !! "authToken") in
  let tid := default "" (Session.localStorage b !! "tenantId") in
  let outcome := Session.useEffect b in
  uncaught outcome = None
  /\ Session.token (finalState outcome) = t
  /\ Session.tenantId (finalState outcome) = tid
  /\ Session.localStorage (finalState outcome) = Session.localStorage b
  /\ (t = "" \/ tid = "" -> Session.route (finalState outcome) = "/")
  /\ (Session.route (finalState outcome) <> Session.route b -> t = "" \/ tid = "").
Proof.
  intros t tid outcome. unfold outcome. session_unfold. simpl. fold t tid.
  destruct (String.eqb_spec t "") as [Ht|Ht];
    destruct (String.eqb_spec tid "") as [Htid|Htid]; simpl;
    repeat split; auto; try done.
  intros [?|?]; done.
Qed.

(** Logging out removes the token and the tenant from the storage and
    nothing else, and goes to the login page; an evaluation page that
    mounts on that storage afterwards, on whatever route, has an empty
    token and an empty tenant and goes to the login page. *)
Theorem handleLogout_ends_session (b : Session.Browser) :
  let out := finalState (Session.handleLogout b) in
  uncaught (Session.handleLogout b) = None
  /\ Session.localStorage out !! "authToken" = None
  /\ Session.localStorage out !! "tenantId" = None
  /\ (forall key, key <> "authToken" -> key <> "tenantId" ->
        Session.localStorage out !! key = Session.localStorage b !! key)
  /\ Session.route out = "/"
  /\ (forall again,
        Session.localStorage again = Session.localStorage out ->
        Session.token (finalState (Session.useEffect again)) = ""
        /\ Session.tenantId (finalState (Session.useEffect again)) = ""
        /\ Session.route (finalState (Session.useEffect again)) = "/").
Proof.
  intros out. unfold out.
  assert (Hkeys :
    Session.localStorage (finalState (Session.handleLogout b)) !! "authToken" = None
    /\ Session.localStorage (finalState (Session.handleLogout b)) !! "tenantId" = None).
  { session_unfold. simpl. split; by simplify_map_eq. }
  destruct Hkeys as [Htoken Htenant].
  split; [done|]. split; [done|]. split; [done|]. split.
  { intros key H1 H2. session_unfold. simpl. by simplify_map_eq. }
  split; [done|].
  intros again Hsame.
  apply useEffect_without_token; rewrite Hsame; done.
Qed.

(** ** The handlers of the evaluation page *)

(** With a file missing, [handleUpload] sends no request: it stops before
    its [await], so that what it does is the same whatever a request
    would have settled to; it shows "Select both CV and Project files"
    and changes nothing else. On the page the button is disabled then,
    and the click cannot happen. *)
Theorem handleUpload_needs_both_files
    (fetch : Outcome UploadResponse.t) (p : Page) :
  cv (state p) = None \/ project (state p) = None ->
  handleUpload_before p =
    Normal false {| state := withError "Select both CV and Project files" (state p);
                    intervals := intervals p |}
  /\ handleUpload fetch p =
     Normal tt {| state := withError "Select both CV and Project files" (state p);
                  intervals := intervals p |}
  /\ (forall r, page r = p -> step clickUpload r = None).
Proof.
  intros Hmissing.
  assert (handleUpload_before p =
    Normal false {| state := withError "Select both CV and Project files" (state p);
                    intervals := intervals p |}) as Hbefore.
  { handler_unfold.
    destruct Hmissing as [-> | ->]; [done|]. destruct (cv (state p)); done. }
  split; [exact Hbefore|]. split.
  - unfold handleUpload. cbv [mbind Handler_bind]. rewrite Hbefore. done.
  - intros r Hr. simpl. rewrite Hr. unfold uploadDisabled.
    destruct Hmissing as [-> | ->]; simpl; [done|]. by rewrite orb_true_r.
Qed.

Lemma handleUpload_needs_both_files_witness :
  (cv (state initialPage) = None \/ project (state initialPage) = None)
  /\ error (state (finalState (handleUpload (Resolved uploaded) initialPage)))
     = "Select both CV and Project files"
  /\ cvId (state (finalState (handleUpload (Resolved uploaded) initialPage))) = "".
Proof.
  destruct (handleUpload_needs_both_files (Resolved uploaded) initialPage
              (or_introl eq_refl)) as (_ & Hupload & _).
  split; [left; reflexivity|]. rewrite Hupload. split; reflexivity.
Defined.

(** [handleUpload] changes the two file identifiers only when both files
    are picked and its request is answered by an object, and then to
    those of the object. Answered by [null], it throws the [TypeError]
    of its first read: the error was emptied, nothing is shown, and the
    identifiers stay, as they do with a file missing or a failed
    request. Whatever happens it leaves the status, the result, the
    progress, the texts, the files and the timers as they were. *)
Theorem handleUpload_sets_ids_on_success_only
    (fetch : Outcome UploadResponse.t) (p : Page) :
  let outcome := handleUpload fetch p in
  (forall f, is_Some (cv (state p)) -> is_Some (project (state p)) ->
     fetch = Resolved (UploadResponse.object f) ->
     uncaught outcome = None
     /\ cvId (state (finalState outcome)) = UploadResponse.cv_file_id f
     /\ projectId (state (finalState outcome)) = UploadResponse.project_file_id f
     /\ error (state (finalState outcome)) = "")
  /\ (is_Some (cv (state p)) -> is_Some (project (state p)) ->
      fetch = Resolved UploadResponse.null ->
      uncaught outcome = Some (nullRead "cv_file_id")
      /\ error (state (finalState outcome)) = "")
  /\ (cv (state p) = None \/ project (state p) = None
      \/ (exists message, fetch = Rejected message)
      \/ fetch = Resolved UploadResponse.null ->
      cvId (state (finalState outcome)) = cvId (state p)
      /\ projectId (state (finalState outcome)) = projectId (state p))
  /\ status (state (finalState outcome)) = status (state p)
  /\ result (state (finalState outcome)) = result (state p)
  /\ progress (state (finalState outcome)) = progress (state p)
  /\ jobDesc (state (finalState outcome)) = jobDesc (state p)
  /\ brief (state (finalState outcome)) = brief (state p)
  /\ cv (state (finalState outcome)) = cv (state p)
  /\ project (state (finalState outcome)) = project (state p)
  /\ intervals (finalState outcome) = intervals p.
Proof.
  intros outcome. unfold outcome. handler_unfold.
  destruct (cv (state p)) as [f|] eqn:Hcv;
    destruct (project (state p)) as [g|] eqn:Hproject;
    destruct fetch as [[|fields]|message]; simpl;
    (split; [intros res' [? ?] [? ?] ?; simplify_eq; done|]);
    (split; [intros [? ?] [? ?] ?; simplify_eq; done|]);
    (split; [intros [?|[?|[[? ?]|?]]]; simplify_eq; done|]);
    done.
Qed.


(** A tick whose request fails with an error other than the 404 one
    throws nothing and clears its timer, which never fires again; it
    leaves the status, the result and the progress as they were. The
    error it leaves is the message of the failure within 90 s of the
    start of the loop, and the timeout message later than that. *)
Theorem request_error_tick_stops i p c (message : string) x t :
  intervals p !! i = Some c ->
  message <> "404" ->
  let outcome := intervalCallback i (Rejected message) x t p in
  uncaught outcome = None
  /\ active i (finalState outcome) = false
  /\ status (state (finalState outcome)) = status (state p)
  /\ result (state (finalState outcome)) = result (state p)
  /\ progress (state (finalState outcome)) = progress (state p)
  /\ ((t - startTime c <= maxWait)%Z ->
        error (state (finalState outcome)) = message)
  /\ ((t - startTime c > maxWait)%Z ->
        error (state (finalState outcome)) = timeoutMessage)
  /\ (forall r events r',
        page r = finalState outcome -> exec events r = Some r' ->
        timerFires i ∉ events).
Proof.
  intros Hc Hm outcome.
  assert (Hcore :
    uncaught outcome = None
    /\ status (state (finalState outcome)) = status (state p)
    /\ result (state (finalState outcome)) = result (state p)
    /\ progress (state (finalState outcome)) = progress (state p)
    /\ ((t - startTime c <= maxWait)%Z ->
          error (state (finalState outcome)) = message)
    /\ ((t - startTime c > maxWait)%Z ->
          error (state (finalState outcome)) = timeoutMessage)
    /\ clearedAt i (intervals (finalState outcome))).
  { unfold outcome.
    callback_by (classify_request_error i message x p) (markCleared c);
      simpl in *; repeat split; try done; try (intros; lia).
    - exists (markCleared c). split; [|done]. by apply lookup_onClosure.
    - exists (markCleared (markCleared c)). split; [|done].
      by do 2 apply lookup_onClosure. }
  destruct Hcore as (H1 & H2 & H3 & H4 & H5 & H6 & H7).
  repeat split; try done.
  - by apply clearedAt_inactive.
  - intros r events r' Hr Hexec. eapply cleared_never_fires; [|exact Hexec].
    rewrite Hr. exact H7.
Qed.

Lemma request_error_tick_witness :
  intervals pollingPage !! 0%nat = Some (loop "job-1" 0)
  /\ error (state (tick 0 (firstTick (Rejected "Failed to fetch")) pollingPage))
     = "Failed to fetch"
  /\ active 0 (tick 0 (firstTick (Rejected "Failed to fetch")) pollingPage) = false.
Proof.
  split; [reflexivity|].
  destruct (request_error_tick_stops 0 pollingPage (loop "job-1" 0)
              "Failed to fetch" (1 # 2) 2500%Z eq_refl)
    as (_ & Ha & _ & _ & _ & Hin & _); [discriminate|].
  split; [apply Hin; vm_compute; discriminate | exact Ha].
Defined.

(** The callback of a timer, whatever its request settles to, changes
    nothing of the page but the status, the result, the error and the
    progress: the files, the file identifiers and the texts stay, no
    timer is registered or removed, and the closure of its own timer
    keeps its job identifier and its start time. *)
Theorem intervalCallback_frame i (fetch : Outcome ResultResponse.t) x t (p : Page) :
  let after := finalState (intervalCallback i fetch x t p) in
  cv (state after) = cv (state p)
  /\ project (state after) = project (state p)
  /\ cvId (state after) = cvId (state p)
  /\ projectId (state after) = projectId (state p)
  /\ jobDesc (state after) = jobDesc (state p)
  /\ brief (state after) = brief (state p)
  /\ length (intervals after) = length (intervals p)
  /\ (forall c, intervals p !! i = Some c ->
        exists c', intervals after !! i = Some c'
          /\ jobId c' = jobId c /\ startTime c' = startTime c).
Proof.
  intros after. unfold after. handler_unfold.
  destruct fetch as [res|m].
  - destruct (ResultResponse.status res); simpl;
      match goal with |- context [(?a >? ?b)%Z] => destruct (a >? b)%Z end;
      simpl; rewrite ?length_alter; repeat split; try done;
      intros c Hc; eexists; (split; [repeat apply lookup_onClosure; exact Hc|]);
      done.
  - destruct (String.eqb m "404"); simpl;
      match goal with |- context [(?a >? ?b)%Z] => destruct (a >? b)%Z end;
      simpl; rewrite ?length_alter; repeat split; try done;
      intros c Hc; eexists; (split; [repeat apply lookup_onClosure; exact Hc|]);
      done.
Qed.

(** ** The page over its runs *)

Lemma inUnitInterval_unitInterval x : inUnitInterval x = true -> unitInterval x.
Proof.
  unfold inUnitInterval. intros H. apply andb_true_iff in H as [H0 H1].
  split; [by apply Qle_bool_iff|].
  apply negb_true_iff in H1. apply Qnot_le_lt. intros Hle.
  apply Qle_bool_iff in Hle. congruence.
Qed.

Lemma estimate_read (l : list Interval) i :
  Forall (fun c => (0 <= progressValue c)%Q /\ (progressValue c <= 95)%Q) l ->
  (0 <= default 0 (progressValue <$> l !! i))%Q
  /\ (default 0 (progressValue <$> l !! i) <= 95)%Q.
Proof.
  intros Hl. destruct (l !! i) as [c|] eqn:Hc; simpl; [|done].
  rewrite Forall_lookup in Hl. eauto.
Qed.

Lemma advance_in_range (v x step cap : Q) :
  unitInterval x -> (0 <= step)%Q -> (0 <= cap)%Q -> (cap <= 95)%Q -> (0 <= v)%Q ->
  (0 <= Qmin (v + x * step) cap)%Q /\ (Qmin (v + x * step) cap <= 95)%Q.
Proof.
  intros [H0 _] Hstep Hcap Hcap' Hv.
  assert (0 <= x * step)%Q by (apply Qmult_le_0_compat; done).
  split.
  - apply Q.min_glb; [lra | done].
  - eapply Qle_trans; [apply Q.le_min_r | done].
Qed.

Lemma estimates_assign (l : list Interval) i v :
  (0 <= v)%Q -> (v <= 95)%Q ->
  Forall (fun c => (0 <= progressValue c)%Q /\ (progressValue c <= 95)%Q) l ->
  Forall (fun c => (0 <= progressValue c)%Q /\ (progressValue c <= 95)%Q)
         (alter (withProgressValue v) i l).
Proof. intros H0 H1 Hl. apply Forall_alter; [done|]. intros c _ _. done. Qed.

Lemma estimates_clear (l : list Interval) i :
  Forall (fun c => (0 <= progressValue c)%Q /\ (progressValue c <= 95)%Q) l ->
  Forall (fun c => (0 <= progressValue c)%Q /\ (progressValue c <= 95)%Q)
         (alter markCleared i l).
Proof. intros Hl. apply Forall_alter; [done|]. intros c _ Hc. done. Qed.

(** The callback keeps the progress in range. *)
Lemma intervalCallback_progressInRange i fetch x t p :
  unitInterval x ->
  Run.progressInRange p ->
  Run.progressInRange (finalState (intervalCallback i fetch x t p)).
Proof.
  intros Hx [Hl Hp]. unfold Run.progressInRange.
  pose proof (estimate_read (intervals p) i Hl) as [Hr0 Hr1].
  pose proof (advance_in_range _ x 8 95 Hx ltac:(done) ltac:(done) ltac:(done) Hr0)
    as [Ha0 Ha1].
  pose proof (advance_in_range _ x 5 85 Hx ltac:(done) ltac:(done) ltac:(done) Hr0)
    as [Hb0 Hb1].
  pose proof (estimates_assign (intervals p) i _ Ha0 Ha1 Hl) as Hla.
  pose proof (estimates_assign (intervals p) i _ Hb0 Hb1 Hl) as Hlb.
  pose proof (estimate_read _ i Hla) as Hra.
  pose proof (estimate_read _ i Hlb) as Hrb.
  handler_unfold.
  destruct fetch as [res|m].
  - destruct (ResultResponse.status res); simpl;
      match goal with |- context [(?a >? ?b)%Z] => destruct (a >? b)%Z end;
      simpl; (split; [auto using estimates_clear|]);
      first [ by auto
            | by (right; split; [done | left; done])
            | by (destruct Hp as [?|[? ?]];
                  [left; done | right; split; [done | right; done]]) ].
  - destruct (String.eqb m "404"); simpl;
      match goal with |- context [(?a >? ?b)%Z] => destruct (a >? b)%Z end;
      simpl; (split; [auto using estimates_clear|]); auto.
Qed.

Lemma step_progressInRange e r r' :
  step e r = Some r' ->
  Run.progressInRange (page r) -> Run.progressInRange (page r').
Proof.
  intros Hstep Hin. pose proof Hin as [Hl Hp].
  destruct e as [f|f|v|v| | |i|k fetch|k fetch t|k fetch x t]; simpl in Hstep.
  - injection Hstep as <-. done.
  - injection Hstep as <-. done.
  - injection Hstep as <-. done.
  - injection Hstep as <-. done.
  - destruct (uploadDisabled _); [done|].
    unfold run in Hstep. revert Hstep. handler_unfold.
    destruct (cv (state (page r))), (project (state (page r))); simpl;
      intros [= <-]; done.
  - destruct (evaluateDisabled _); [done|]. injection Hstep as <-.
    split; [done|]. left. done.
  - destruct (active _ _); [|done]. injection Hstep as <-. done.
  - destruct (suspended r !! k) as [[]|]; try done. injection Hstep as <-.
    unfold run. handler_unfold. destruct fetch as [[|f]|m]; done.
  - destruct (suspended r !! k) as [[]|]; try done. injection Hstep as <-.
    unfold run. handler_unfold. destruct fetch; simpl; [|done].
    split; [|done]. apply Forall_app. split; [done|].
    apply Forall_singleton. done.
  - destruct (suspended r !! k) as [[| |i]|]; try done.
    destruct (inUnitInterval x) eqn:Hx; [|done]. injection Hstep as <-.
    apply inUnitInterval_unitInterval in Hx.
    pose proof (intervalCallback_progressInRange i fetch x t (page (resume k r)) Hx Hin)
      as H.
    unfold run.
    destruct (intervalCallback_page i fetch x t (page (resume k r))) as [p' Hp'].
    rewrite Hp' in *. done.
Qed.

Lemma exec_progressInRange events : forall r r',
  exec events r = Some r' ->
  Run.progressInRange (page r) -> Run.progressInRange (page r').
Proof.
  induction events as [|e events IH]; intros r r' Hexec Hin; simpl in Hexec.
  - by injection Hexec as <-.
  - destruct (step e r) as [r1|] eqn:Hstep; [|done].
    eauto using step_progressInRange.
Qed.

(** On every page that the events lead to, the estimate of every loop
    lies in [0, 95] and the progress shown lies in [0, 100]; a progress
    above 95 is exactly 100, and occurs only under the status completed
    or failed. The progress bar, which the page shows while the status
    is processing, therefore never shows more than 95. *)
Theorem reachable_progress_in_range r :
  reachable r ->
  (forall i c, intervals (page r) !! i = Some c ->
     (0 <= progressValue c)%Q /\ (progressValue c <= 95)%Q)
  /\ (0 <= progress (state (page r)))%Q
  /\ (progress (state (page r)) <= 100)%Q
  /\ ((95 < progress (state (page r)))%Q ->
      progress (state (page r)) = 100%Q
      /\ (status (state (page r)) = job completed
          \/ status (state (page r)) = job failed))
  /\ (forall shown,
        View.progressBar (View.render (state (page r))) = Some shown ->
        (0 <= shown)%Q /\ (shown <= 95)%Q).
Proof.
  intros [events Hexec].
  assert (Run.progressInRange (page r)) as [Hl Hp].
  { eapply exec_progressInRange; [exact Hexec|].
    split; [constructor|]. left. done. }
  split.
  { intros i c Hc. rewrite Forall_lookup in Hl. eauto. }
  destruct Hp as [[H0 H1]|[H100 Hstatus]].
  - split; [done|]. split; [eapply Qle_trans; [exact H1|done]|].
    split.
    + intros Hgt. exfalso. eapply Qlt_not_le; eauto.
    + unfold View.render. simpl. intros shown Hshown.
      destruct (status (state (page r))) as [|[]]; simplify_eq. done.
  - rewrite H100. split; [done|]. split; [done|]. split; [done|].
    unfold View.render. simpl. intros shown Hshown.
    destruct Hstatus as [Hs|Hs]; rewrite Hs in Hshown; done.
Qed.

Lemma reachable_progress_witness :
  reachable pollingRuntime
  /\ (0 <= progress (state pollingPage))%Q
  /\ (progress (state pollingPage) <= 100)%Q.
Proof.
  split; [exact pollingRuntime_reachable|].
  destruct (reachable_progress_in_range pollingRuntime pollingRuntime_reachable)
    as (_ & H0 & H100 & _).
  split; [exact H0 | exact H100].
Defined.

Lemma step_unhandled e r r' :
  step e r = Some r' ->
  unhandledRejections r' = unhandledRejections r ++ Run.uploadFailures [e].
Proof.
  intros Hstep.
  destruct e as [f|f|v|v| | |i|k fetch|k fetch t|k fetch x t]; simpl in *;
    rewrite ?app_nil_r.
  - by injection Hstep as <-.
  - by injection Hstep as <-.
  - by injection Hstep as <-.
  - by injection Hstep as <-.
  - destruct (uploadDisabled _); [done|].
    unfold run in Hstep. revert Hstep. handler_unfold.
    destruct (cv (state (page r))), (project (state (page r))); simpl;
      intros [= <-]; done.
  - destruct (evaluateDisabled _); [done|]. by injection Hstep as <-.
  - destruct (active _ _); [|done]. by injection Hstep as <-.
  - destruct (suspended r !! k) as [[]|]; try done. injection Hstep as <-.
    unfold run. handler_unfold.
    destruct fetch as [[|f]|m]; simpl; by rewrite ?app_nil_r.
  - destruct (suspended r !! k) as [[]|]; try done. injection Hstep as <-.
    unfold run. handler_unfold. destruct fetch; done.
  - destruct (suspended r !! k) as [[| |i]|]; try done.
    destruct (inUnitInterval x); [|done]. injection Hstep as <-.
    unfold run.
    destruct (intervalCallback_page i fetch x t (page (resume k r))) as [p' ->].
    done.
Qed.

Lemma uploadFailures_cons e events :
  Run.uploadFailures (e :: events)
  = Run.uploadFailures [e] ++ Run.uploadFailures events.
Proof. destruct e as [ | | | | | | |k [[|f]|m]| | ]; done. Qed.

(** The unhandled rejections of the page are those of its uploads that
    ended with an error, one for each and in their order: the uploads
    whose request failed, with the message of the failure, and those
    answered by [null], with the [TypeError] of the read. No other
    event, whatever its request settles to, leaves an exception
    uncaught. *)
Theorem unhandled_rejections_are_failed_uploads events : forall r r',
  exec events r = Some r' ->
  unhandledRejections r' = unhandledRejections r ++ Run.uploadFailures events.
Proof.
  induction events as [|e events IH]; intros r r' Hexec; simpl in Hexec.
  - injection Hexec as <-. simpl. by rewrite app_nil_r.
  - destruct (step e r) as [r1|] eqn:Hstep; [|done].
    rewrite (IH r1 r' Hexec), (step_unhandled e r r1 Hstep).
    rewrite (uploadFailures_cons e events), app_assoc. done.
Qed.

Lemma unhandled_rejections_witness :
  exists r,
    exec Sample.failingEvents initialRuntime = Some r
    /\ unhandledRejections r
       = ["Failed to fetch"; "Bad Gateway";
          "Cannot read properties of null (reading 'cv_file_id')"]
    /\ error (state (page r)) = "".
Proof.
  destruct (exec Sample.failingEvents initialRuntime) as [r|] eqn:Hexec;
    [|vm_compute in Hexec; discriminate].
  exists r. split; [reflexivity|].
  split.
  - rewrite (unhandled_rejections_are_failed_uploads _ _ _ Hexec). reflexivity.
  - vm_compute in Hexec. injection Hexec as <-. reflexivity.
Defined.

(** ** The length of a loop *)

Lemma tick_closure i tk p c :
  intervals p !! i = Some c ->
  exists c', intervals (tick i tk p) !! i = Some c'
    /\ startTime c' = startTime c.
Proof.
  intros Hc. unfold tick. destruct tk as [fetch x t]. simpl. handler_unfold.
  destruct fetch as [res|m].
  - destruct (ResultResponse.status res); simpl;
      match goal with |- context [(?a >? ?b)%Z] => destruct (a >? b)%Z end;
      simpl; eexists; (split; [repeat apply lookup_onClosure; exact Hc|]);
      done.
  - destruct (String.eqb m "404"); simpl;
      match goal with |- context [(?a >? ?b)%Z] => destruct (a >? b)%Z end;
      simpl; eexists; (split; [repeat apply lookup_onClosure; exact Hc|]);
      done.
Qed.

Lemma pollLoop_closure i ticks : forall p c,
  intervals p !! i = Some c ->
  exists c', intervals (pollLoop i ticks p) !! i = Some c'
    /\ startTime c' = startTime c.
Proof.
  induction ticks as [|tk ticks IH]; intros p c Hc; simpl; [eauto|].
  destruct (active i p); [|eauto].
  destruct (tick_closure i tk p c Hc) as (c1 & Hc1 & Hs1).
  destruct (IH _ c1 Hc1) as (c2 & Hc2 & Hs2).
  exists c2. split; [done|]. congruence.
Qed.

(** A loop whose ticks come on the schedule of its timer, one every 2.5 s
    at the earliest, runs for at most 37 of them, whatever its requests
    settle to: the 37th comes later than 90 s after the start, so the
    ticks after it change nothing, and the timer is cleared by then. *)
Theorem polling_ends_by_37th_tick i p c ticks :
  intervals p !! i = Some c ->
  Run.onSchedule (startTime c) ticks ->
  pollLoop i ticks p = pollLoop i (take 37 ticks) p
  /\ (37 <= length ticks -> active i (pollLoop i ticks p) = false).
Proof.
  intros Hc Hs.
  destruct (ticks !! 36%nat) as [late|] eqn:Hl.
  2: { apply lookup_ge_None in Hl. rewrite take_ge by lia. split; [done|lia]. }
  pose proof (Hs 36%nat late Hl) as Hnow. unfold Run.period in Hnow.
  assert (Hsplit : take 36 ticks ++ late :: drop 37 ticks = ticks)
    by (apply take_drop_middle; done).
  rewrite (take_S_r ticks 36 late Hl).
  assert (pollLoop i (take 36 ticks ++ late :: drop 37 ticks) p
          = pollLoop i (take 36 ticks ++ [late]) p
          /\ active i (pollLoop i (take 36 ticks ++ late :: drop 37 ticks) p)
             = false) as Hgoal.
  { rewrite !pollLoop_app.
    destruct (pollLoop_closure i (take 36 ticks) p c Hc) as (c' & Hc' & Hst).
    set (q := pollLoop i (take 36 ticks) p) in *.
    simpl. destruct (active i q) eqn:Ha; [|done].
    destruct (tick_late i q c' (response late) (random late) (now late) Hc')
      as (_ & _ & Hcl).
    { rewrite Hst. unfold maxWait. lia. }
    apply clearedAt_inactive in Hcl. fold (tick i late q) in Hcl.
    rewrite (pollLoop_inactive i _ _ Hcl). done. }
  rewrite Hsplit in Hgoal. destruct Hgoal as [Hsame Hoff]. done.
Qed.

Lemma punctualTicks_onSchedule : Run.onSchedule 0 Sample.punctualTicks.
Proof.
  intros k tk H.
  do 40 (destruct k as [|k]; [injection H as <-; vm_compute; discriminate|]).
  discriminate H.
Qed.

Lemma polling_ends_witness :
  intervals pollingPage !! 0%nat = Some (loop "job-1" 0)
  /\ active 0 (pollLoop 0 (take 36 Sample.punctualTicks) pollingPage) = true
  /\ pollLoop 0 Sample.punctualTicks pollingPage
     = pollLoop 0 (take 37 Sample.punctualTicks) pollingPage
  /\ active 0 (pollLoop 0 Sample.punctualTicks pollingPage) = false.
Proof.
  split; [reflexivity|]. split; [vm_compute; reflexivity|].
  destruct (polling_ends_by_37th_tick 0 pollingPage (loop "job-1" 0)
              Sample.punctualTicks eq_refl punctualTicks_onSchedule)
    as [Hsame Hoff].
  split; [exact Hsame|]. apply Hoff. simpl. lia.
Defined.

(** ** What the page shows after a tick *)

Lemma eqb_timeoutMessage : String.eqb timeoutMessage "" = false.
Proof. reflexivity. Qed.

Lemma orElse_not_empty e fallback :
  fallback <> "" -> String.eqb (orElse e fallback) "" = false.
Proof.
  intros Hf. apply String.eqb_neq. unfold orElse.
  destruct e as [m|]; [|done].
  destruct (String.eqb_spec m ""); done.
Qed.

(** After a completed tick the page shows the result cards exactly when
    the response carried a result object, and none of the other status
    panels. A completed response whose result is left out or [null],
    within the time allowed and with no earlier error on the page,
    leaves the status section and the error line empty; later than the
    time allowed, the timeout message is shown under the section. *)
Theorem completed_tick_view i p c (res : ResultResponse.t) x t :
  intervals p !! i = Some c ->
  ResultResponse.status res = completed ->
  let v := View.render
             (state (tick i {| response := Resolved res; random := x; now := t |} p)) in
  View.queuedNotice v = false
  /\ View.progressBar v = None
  /\ View.failedNotice v = None
  /\ View.resultCards v
     = match ResultResponse.result res with
       | present payload => Some payload
       | absent | null => None
       end
  /\ ((t - startTime c <= maxWait)%Z -> error (state p) = "" ->
      View.errorNotice v = None)
  /\ ((t - startTime c <= maxWait)%Z -> error (state p) = "" ->
      ResultResponse.result res = absent \/ ResultResponse.result res = null ->
      View.blank v)
  /\ ((t - startTime c > maxWait)%Z ->
      View.errorNotice v = Some timeoutMessage).
Proof.
  intros Hc Hs v. unfold v, tick, View.blank. simpl.
  callback_by (classify_completed i res x p) (markCleared c);
    unfold View.render; simpl;
    (destruct (ResultResponse.result res) as [| |payload] eqn:Hres; simpl);
    repeat split; try done; try lia; try (intros _ ->; done);
    try (intros _ -> _; done); try (intros _ _ [?|?]; done);
    try match goal with
        | Hno : _ \/ _ |- _ => destruct Hno; done
        | Herr : error _ = _ |- _ => rewrite Herr; done
        end.
Qed.

Lemma completed_tick_view_witness :
  View.blank
    (View.render (state (tick 0 (firstTick (answer completed absent None)) pollingPage)))
  /\ View.resultCards
       (View.render
          (state (tick 0 (firstTick (answer completed (present scores) None)) pollingPage)))
     = Some scores.
Proof.
  split.
  - apply (completed_tick_view 0 pollingPage (loop "job-1" 0)
             {| ResultResponse.id := "job-1"; ResultResponse.status := completed;
                ResultResponse.result := absent; ResultResponse.error := None |}
             (1 # 2) 2500 eq_refl eq_refl);
      [simpl; unfold maxWait; lia | done | left; done].
  - apply (completed_tick_view 0 pollingPage (loop "job-1" 0)
             {| ResultResponse.id := "job-1"; ResultResponse.status := completed;
                ResultResponse.result := present scores; ResultResponse.error := None |}
             (1 # 2) 2500 eq_refl eq_refl).
Defined.

(** After a failed tick the page shows one message, in the status
    section and not a second time under it: the error of the response,
    [Evaluation failed] when it has none, or the timeout message when
    the tick comes later than the time allowed; the message is never
    empty, and no other status panel is shown. *)
Theorem failed_tick_view i p c (res : ResultResponse.t) x t :
  intervals p !! i = Some c ->
  ResultResponse.status res = failed ->
  let v := View.render
             (state (tick i {| response := Resolved res; random := x; now := t |} p)) in
  View.queuedNotice v = false
  /\ View.progressBar v = None
  /\ View.resultCards v = None
  /\ View.errorNotice v = None
  /\ (exists message, View.failedNotice v = Some message /\ message <> "")
  /\ ((t - startTime c <= maxWait)%Z ->
      View.failedNotice v
      = Some (orElse (ResultResponse.error res) "Evaluation failed"))
  /\ ((t - startTime c > maxWait)%Z ->
      View.failedNotice v = Some timeoutMessage).
Proof.
  intros Hc Hs v. unfold v, tick. simpl.
  pose proof (orElse_not_empty (ResultResponse.error res) "Evaluation failed"
                ltac:(done)) as Hne.
  callback_by (classify_failed i res x p) (markCleared c);
    unfold View.render; simpl; rewrite ?Hne; simpl;
    repeat split; try done; try lia.
  - eexists. split; [done|]. by apply String.eqb_neq.
  - eexists. split; [done|]. done.
Qed.

Lemma failed_tick_view_witness :
  View.failedNotice
    (View.render
       (state (tick 0 (firstTick (answer failed absent (Some "bad input"))) pollingPage)))
  = Some "bad input"
  /\ View.errorNotice
       (View.render
          (state (tick 0 (firstTick (answer failed absent (Some "bad input"))) pollingPage)))
     = None.
Proof.
  destruct (failed_tick_view 0 pollingPage (loop "job-1" 0)
              {| ResultResponse.id := "job-1"; ResultResponse.status := failed;
                 ResultResponse.result := absent;
                 ResultResponse.error := Some "bad input" |}
              (1 # 2) 2500 eq_refl eq_refl)
    as (_ & _ & _ & Hnone & _ & Hin & _).
  split; [|exact Hnone].
  apply Hin. simpl. unfold maxWait. lia.
Defined.

(** A queued tick advances the progress of the page, yet the page shows
    no progress bar for it, only the queued notice; a processing tick
    shows the bar at the new estimate.  Neither shows a result or a
    failure. *)
Theorem in_progress_tick_view i p c (res : ResultResponse.t) x t :
  intervals p !! i = Some c ->
  ResultResponse.status res = queued \/ ResultResponse.status res = processing ->
  let after := state (tick i {| response := Resolved res; random := x; now := t |} p) in
  let v := View.render after in
  progress after = Qmin (progressValue c + x * 8) 95
  /\ (ResultResponse.status res = queued ->
      View.queuedNotice v = true /\ View.progressBar v = None)
  /\ (ResultResponse.status res = processing ->
      View.queuedNotice v = false
      /\ View.progressBar v = Some (Qmin (progressValue c + x * 8) 95))
  /\ View.failedNotice v = None
  /\ View.resultCards v = None.
Proof.
  intros Hc Hs after v. unfold v, after, tick. simpl.
  callback_by (classify_in_progress i p c Hc res x)
              (withProgressValue (Qmin (progressValue c + x * 8) 95) c);
    unfold View.render; simpl;
    (destruct Hs as [Hs|Hs]; rewrite Hs; simpl);
    repeat split; try done.
Qed.

Lemma in_progress_tick_view_witness :
  View.queuedNotice
    (View.render (state (tick 0 (firstTick (answer queued absent None)) pollingPage)))
  = true
  /\ View.progressBar
       (View.render (state (tick 0 (firstTick (answer queued absent None)) pollingPage)))
     = None
  /\ progress (state (tick 0 (firstTick (answer queued absent None)) pollingPage))
     = Qmin (0 + (1 # 2) * 8) 95.
Proof.
  destruct (in_progress_tick_view 0 pollingPage (loop "job-1" 0)
              {| ResultResponse.id := "job-1"; ResultResponse.status := queued;
                 ResultResponse.result := absent; ResultResponse.error := None |}
              (1 # 2) 2500 eq_refl (or_introl eq_refl))
    as (Hp & Hq & _).
  destruct (Hq eq_refl) as [Hq1 Hq2].
  split; [exact Hq1|]. split; [exact Hq2 | exact Hp].
Defined.
